(** * DevLabo dashboard client: a shallow embedding and its properties

    The client is a React/TypeScript dashboard.  Its pure helpers
    (URL builders, request constructors, event handlers) are embedded as Rocq
    functions; its asynchronous functions are embedded in a small
    free monad [Async] whose only effect is [fetch]; React component state
    is passed explicitly and the calls a handler makes to its callbacks and
    state setters are recorded as an effect trace.

    JavaScript strings are sequences of UTF-16 code units, here [list N]. *)

From Stdlib Require Import NArith Ascii String DecimalString.
From stdpp Require Import base option list strings gmap.

Set Warnings "-register-all,-clear-no-such-hyp".
Local Open Scope N_scope.

(** ** JavaScript values needed by the client *)

Module Js.

(** A JavaScript string: its UTF-16 code units. *)
Definition jsstring : Type := list N.

(** An ASCII literal of the source, as a JavaScript string. *)
Definition lit (s : string) : jsstring :=
  N_of_ascii <$> list_ascii_of_string s.

(** ToBoolean on a string: only the empty string is falsy. *)
Definition truthy (s : jsstring) : bool :=
  match s with [] => false | _ :: _ => true end.

(** [a || b] on strings. *)
Definition or_else (a b : jsstring) : jsstring :=
  if truthy a then a else b.

(** ToBoolean on an optional boolean property ([undefined] is falsy). *)
Definition truthy_opt (b : option bool) : bool := default false b.

End Js.

Import Js.
Arguments lit _%_string : simpl never.

(** ** src/client/src/lib/api.ts *)

Section Api.

(** The build-time constant [__API_URL__] (declared, not defined, in api.ts;
    the [define] of the vite configuration replaces it). *)
Variable __API_URL__ : jsstring.

Definition API_URL : jsstring := or_else __API_URL__ (lit "").

Definition apiUrl (path : jsstring) : jsstring :=
  if truthy API_URL then API_URL ++ path else path.

Definition previewUrl (userId projectId module : jsstring) : jsstring :=
  apiUrl (lit "/connect/" ++ userId ++ lit "/" ++ projectId ++ lit "/"
          ++ module ++ lit "/").

Definition agentChatUrl : jsstring := apiUrl (lit "/agent/chat").

Definition sandboxFilesUrl (userId projectId module : jsstring) : jsstring :=
  apiUrl (lit "/connect/" ++ userId ++ lit "/" ++ projectId ++ lit "/"
          ++ module ++ lit "/api/files").

End Api.

(** ** The type declarations of the client (the types that follow the hook
    in src/unnamed/part_004) *)

(** [type ModuleType = 'prototype' | 'frontend' | 'dbml' | 'tests'] *)
Inductive ModuleType : Type := prototype | frontend | dbml | tests.

(** A [ModuleType] value is the string literal itself. *)
Definition ModuleType_str (m : ModuleType) : jsstring :=
  match m with
  | prototype => lit "prototype"
  | frontend => lit "frontend"
  | dbml => lit "dbml"
  | tests => lit "tests"
  end.

#[global] Instance ModuleType_eq_dec : EqDecision ModuleType.
Proof. solve_decision. Defined.

Inductive NodeType : Type := file | directory.

#[global] Instance NodeType_eq_dec : EqDecision NodeType.
Proof. solve_decision. Defined.

(** [interface FileNode]; [children] is optional. *)
Inductive FileNode : Type :=
  mkFileNode (name path : jsstring) (type : NodeType)
             (children : option (list FileNode)).

Definition node_name (n : FileNode) : jsstring :=
  match n with mkFileNode nm _ _ _ => nm end.
Definition node_path (n : FileNode) : jsstring :=
  match n with mkFileNode _ p _ _ => p end.
Definition node_type (n : FileNode) : NodeType :=
  match n with mkFileNode _ _ t _ => t end.

Inductive Role : Type := user | assistant.

Definition Role_str (r : Role) : jsstring :=
  match r with user => lit "user" | assistant => lit "assistant" end.

(** [interface Message]; [timestamp] is a [Date], kept as its time value in
    milliseconds. *)
Record Message : Type := mkMessage {
  msg_id : jsstring;
  msg_role : Role;
  msg_content : jsstring;
  msg_timestamp : Z;
}.

Inductive ActionType : Type := file_created | file_modified | file_deleted.

Record AgentAction : Type := mkAgentAction {
  action_type : ActionType;
  action_path : jsstring;
}.

(** [interface AgentResponse]; [actions] is optional. *)
Record AgentResponse : Type := mkAgentResponse {
  resp_message : jsstring;
  resp_actions : option (list AgentAction);
}.

Record SandboxFile : Type := mkSandboxFile {
  sf_path : jsstring;
  sf_content : jsstring;
  sf_type : NodeType;
}.

(** ** JSON documents and [JSON.stringify] *)

(** The values the client builds before serialising them. *)
Inductive JsValue : Type :=
| VUndefined
| VString (s : jsstring)
| VArray (items : list JsValue)
| VObject (props : list (jsstring * JsValue)).

(** A JSON document.  The text rendering (quoting, escapes) is the
    platform's; the requests are compared as documents. *)
Inductive Json : Type :=
| JNull
| JStr (s : jsstring)
| JArr (items : list Json)
| JObj (members : list (jsstring * Json)).

(** [JSON.stringify]: [undefined] alone has no serialisation, a property
    whose value is [undefined] is left out, and an [undefined] array element
    becomes [null]. *)
Fixpoint JSON_stringify (v : JsValue) : option Json :=
  match v with
  | VUndefined => None
  | VString s => Some (JStr s)
  | VArray items =>
      Some (JArr ((λ x, default JNull (JSON_stringify x)) <$> items))
  | VObject props =>
      Some (JObj (omap (λ kv, (λ j, (kv.1, j)) <$> JSON_stringify kv.2) props))
  end.

(** ** [fetch] and asynchronous functions *)

Inductive Method : Type := GET | POST.

Record Request : Type := mkRequest {
  req_url : jsstring;
  req_method : Method;
  req_headers : list (jsstring * jsstring);
  req_body : option Json;
}.

(** [fetch(url)] with no init object. *)
Definition plain_get (u : jsstring) : Request :=
  {| req_url := u; req_method := GET; req_headers := []; req_body := None |}.

(** A [Response].  [res_json] is what [response.json()] resolves to, at the
    type [T] the calling function declares for it (TypeScript does not check
    it at run time); [None] when the body is not JSON. *)
Record Response (T : Type) : Type := mkResponse {
  res_status : N;
  res_text : jsstring;
  res_json : option T;
}.
Arguments mkResponse {T} _ _ _.
Arguments res_status {T} _.
Arguments res_text {T} _.
Arguments res_json {T} _.

(** [response.ok]: the status is in the range 200-299. *)
Definition res_ok {T} (r : Response T) : bool :=
  (200 <=? res_status r) && (res_status r <=? 299).

Inductive JsError : Type :=
| Error (message : jsstring)
| TypeError (message : jsstring)
| SyntaxError
| URIError.

(** What a call of [fetch] settles to: a response, or a rejection (network
    failure). *)
Inductive FetchOutcome (T : Type) : Type :=
| Fulfilled (r : Response T)
| Failed (e : JsError).
Arguments Fulfilled {T} _.
Arguments Failed {T} _.

(** An asynchronous function body: it resolves, rejects, or awaits a
    [fetch] and continues with what the fetch settled to. *)
Inductive Async (T A : Type) : Type :=
| Resolve (a : A)
| Reject (e : JsError)
| Fetch (req : Request) (k : FetchOutcome T → Async T A).
Arguments Resolve {T A} _.
Arguments Reject {T A} _.
Arguments Fetch {T A} _ _.

Fixpoint Async_bind {T A B} (m : Async T A) (f : A → Async T B) : Async T B :=
  match m with
  | Resolve a => f a
  | Reject e => Reject e
  | Fetch req k => Fetch req (λ o, Async_bind (k o) f)
  end.

(** [await fetch(req)]: a rejected fetch rejects the awaiting function. *)
Definition await_fetch {T} (req : Request) : Async T (Response T) :=
  Fetch req (λ o, match o with
                  | Fulfilled r => Resolve r
                  | Failed e => Reject e
                  end).

(** [response.json()] *)
Definition json {T} (r : Response T) : Async T T :=
  match res_json r with
  | Some v => Resolve v
  | None => Reject SyntaxError
  end.

Notation "x ←ᵃ m ; f" := (Async_bind m (λ x, f))
  (at level 100, m at next level, right associativity).

(** Running an asynchronous function against a network: the requests it
    issued, in order, and how its promise settled. *)
Fixpoint run {T A} (net : Request → FetchOutcome T) (m : Async T A)
  : list Request * (JsError + A) :=
  match m with
  | Resolve a => ([], inr a)
  | Reject e => ([], inl e)
  | Fetch req k =>
      let r := run net (k (net req)) in (req :: r.1, r.2)
  end.

(** ** Platform string functions used by the client *)

(** The characters [encodeURIComponent] leaves alone:
    letters, digits and [- _ . ! ~ * ' ( )]. *)
Definition uri_unreserved (c : N) : bool :=
  ((65 <=? c) && (c <=? 90)) || ((97 <=? c) && (c <=? 122))
  || ((48 <=? c) && (c <=? 57))
  || bool_decide (c ∈ [45; 95; 46; 33; 126; 42; 39; 40; 41]).

Definition hex_digit (d : N) : N := if d <? 10 then 48 + d else 55 + d.

(** ["%XX"] for one octet. *)
Definition percent_octet (b : N) : jsstring :=
  [37; hex_digit (N.shiftr b 4); hex_digit (N.land b 15)].

(** The UTF-8 octets of a code point. *)
Definition utf8 (cp : N) : list N :=
  if cp <? 0x80 then [cp]
  else if cp <? 0x800 then
    [N.lor 0xC0 (N.shiftr cp 6); N.lor 0x80 (N.land cp 0x3F)]
  else if cp <? 0x10000 then
    [N.lor 0xE0 (N.shiftr cp 12); N.lor 0x80 (N.land (N.shiftr cp 6) 0x3F);
     N.lor 0x80 (N.land cp 0x3F)]
  else
    [N.lor 0xF0 (N.shiftr cp 18); N.lor 0x80 (N.land (N.shiftr cp 12) 0x3F);
     N.lor 0x80 (N.land (N.shiftr cp 6) 0x3F); N.lor 0x80 (N.land cp 0x3F)].

Definition is_high_surrogate (c : N) : bool := (0xD800 <=? c) && (c <=? 0xDBFF).
Definition is_low_surrogate (c : N) : bool := (0xDC00 <=? c) && (c <=? 0xDFFF).

(** [encodeURIComponent]; [None] is the [URIError] thrown on a lone
    surrogate. *)
Fixpoint encodeURIComponent (s : jsstring) : option jsstring :=
  match s with
  | [] => Some []
  | c :: rest =>
      if uri_unreserved c then (λ t, c :: t) <$> encodeURIComponent rest
      else if is_low_surrogate c then None
      else if is_high_surrogate c then
        match rest with
        | d :: rest' =>
            if is_low_surrogate d then
              (λ t, (utf8 (0x10000 + (c - 0xD800) * 0x400 + (d - 0xDC00))
                       ≫= percent_octet) ++ t) <$> encodeURIComponent rest'
            else None
        | [] => None
        end
      else (λ t, (utf8 c ≫= percent_octet) ++ t) <$> encodeURIComponent rest
  end.

(** White space and line terminators, as [String.prototype.trim] strips
    them. *)
Definition is_trim_space (c : N) : bool :=
  bool_decide (c ∈ [0x09; 0x0A; 0x0B; 0x0C; 0x0D; 0x20; 0xA0; 0x1680;
                    0x2028; 0x2029; 0x202F; 0x205F; 0x3000; 0xFEFF])
  || ((0x2000 <=? c) && (c <=? 0x200A)).

Fixpoint trim_start (s : jsstring) : jsstring :=
  match s with
  | c :: rest => if is_trim_space c then trim_start rest else s
  | [] => []
  end.

(** [s.trim()] *)
Definition trim (s : jsstring) : jsstring :=
  reverse (trim_start (reverse (trim_start s))).

(** ** src/client/src/hooks/useSandbox.ts *)

Definition json_headers : list (jsstring * jsstring) :=
  [(lit "Content-Type", lit "application/json")].

Definition fetchFileTree (userId projectId module : jsstring)
  : Async (list FileNode) (list FileNode) :=
  response ←ᵃ await_fetch
    (plain_get (lit "/connect/" ++ userId ++ lit "/" ++ projectId ++ lit "/"
                ++ module ++ lit "/api/files"));
  if negb (res_ok response)
  then Reject (Error (lit "Failed to fetch file tree"))
  else json response.

Definition readFile (userId projectId module path : jsstring)
  : Async SandboxFile SandboxFile :=
  match encodeURIComponent path with
  | None => Reject URIError
  | Some encoded =>
      response ←ᵃ await_fetch
        (plain_get (lit "/connect/" ++ userId ++ lit "/" ++ projectId
                    ++ lit "/" ++ module ++ lit "/api/files?path="
                    ++ encoded));
      if negb (res_ok response)
      then Reject (Error (lit "Failed to read file"))
      else json response
  end.

Definition writeFile {T} (userId projectId module path content : jsstring)
  : Async T unit :=
  response ←ᵃ await_fetch
    {| req_url := lit "/connect/" ++ userId ++ lit "/" ++ projectId ++ lit "/"
                  ++ module ++ lit "/api/files";
       req_method := POST;
       req_headers := json_headers;
       req_body := JSON_stringify
                     (VObject [(lit "path", VString path);
                               (lit "content", VString content)]) |};
  if negb (res_ok response)
  then Reject (Error (lit "Failed to write file"))
  else Resolve ().

(** ** The agent hook, useAgent (src/unnamed/part_004) *)

Section UseAgent.

Variable __API_URL__ : jsstring.

Definition sendAgentMessage (request : JsValue)
  : Async AgentResponse AgentResponse :=
  response ←ᵃ await_fetch
    {| req_url := agentChatUrl __API_URL__;
       req_method := POST;
       req_headers := json_headers;
       req_body := JSON_stringify request |};
  if negb (res_ok response)
  then Reject (Error (or_else (res_text response)
                              (lit "Failed to send message")))
  else json response.

(** The [mutationFn] of [useAgent]; [chatHistory] is an optional option of
    the hook. *)
Definition useAgent_mutationFn (userId projectId : jsstring)
    (activeModule : ModuleType) (chatHistory : option (list Message))
    (message : jsstring) : Async AgentResponse AgentResponse :=
  sendAgentMessage
    (VObject
       [(lit "message", VString message);
        (lit "chat_history",
         match chatHistory with
         | Some h =>
             VArray ((λ m, VObject [(lit "role", VString (Role_str (msg_role m)));
                                    (lit "content", VString (msg_content m))])
                       <$> h)
         | None => VUndefined
         end);
        (lit "context",
         VObject [(lit "userId", VString userId);
                  (lit "projectId", VString projectId);
                  (lit "activeModule", VString (ModuleType_str activeModule))])]).

End UseAgent.

(** ** src/client/src/components/chat/ChatInput.tsx *)

(** What a handler of [ChatInput] does, in order: calls of the [onSend]
    prop, of the state setter, and of [e.preventDefault]. *)
Inductive ChatInputEffect : Type :=
| onSend (message : jsstring)
| setMessage (message : jsstring)
| preventDefault.

Record KeyboardEvent : Type := mkKeyboardEvent {
  key : jsstring;
  shiftKey : bool;
}.

Section ChatInput.

(** The prop [isLoading?] and the state [message] of the component. *)
Variable isLoading : option bool.
Variable message : jsstring.

Definition handleSubmit : list ChatInputEffect :=
  let trimmed := trim message in
  if truthy trimmed && negb (truthy_opt isLoading)
  then [onSend trimmed; setMessage (lit "")]
  else [].

Definition handleKeyDown (e : KeyboardEvent) : list ChatInputEffect :=
  if bool_decide (key e = lit "Enter") && negb (shiftKey e)
  then preventDefault :: handleSubmit
  else [].

(** [disabled] of the send button and of the textarea. *)
Definition send_button_disabled : bool :=
  negb (truthy (trim message)) || truthy_opt isLoading.

Definition textarea_disabled : bool := truthy_opt isLoading.

End ChatInput.

(** The state [message] once the effects of a handler have been applied. *)
Definition message_after (effects : list ChatInputEffect) (message : jsstring)
  : jsstring :=
  foldl (λ m e, match e with setMessage m' => m' | _ => m end) message effects.

(** ** src/client/src/components/chat/ChatPanel.tsx *)

(** The state of the panel: its own [isOpen] and [messages], and
    [isPending] of the mutation of [useAgent]. *)
Record ChatPanelState : Type := mkChatPanelState {
  isOpen : bool;
  messages : list Message;
  isPending : bool;
}.

(** What [crypto.randomUUID()] and [new Date()] return at one call. *)
Record Fresh : Type := mkFresh {
  randomUUID : jsstring;
  now : Z;
}.

Section ChatPanel.

Variable __API_URL__ : jsstring.
Variables userId projectId : jsstring.
Variable activeModule : ModuleType.

(** [onSuccess] as given to [useAgent]. *)
Definition ChatPanel_onSuccess (env : Fresh) (response : AgentResponse)
    (st : ChatPanelState) : ChatPanelState :=
  let assistantMessage :=
    {| msg_id := randomUUID env; msg_role := assistant;
       msg_content := resp_message response; msg_timestamp := now env |} in
  {| isOpen := isOpen st;
     messages := messages st ++ [assistantMessage];
     isPending := isPending st |}.

(** [handleSend]: the user's message is appended, and [sendMessage]
    (the [mutate] of the mutation, no [chatHistory] being given to the hook)
    starts the request. *)
Definition ChatPanel_handleSend (env : Fresh) (content : jsstring)
    (st : ChatPanelState)
  : ChatPanelState * Async AgentResponse AgentResponse :=
  let userMessage :=
    {| msg_id := randomUUID env; msg_role := user;
       msg_content := content; msg_timestamp := now env |} in
  ({| isOpen := isOpen st;
      messages := messages st ++ [userMessage];
      isPending := true |},
   useAgent_mutationFn __API_URL__ userId projectId activeModule None content).

(** The mutation settles: [onSuccess] runs on a resolved promise, nothing
    does on a rejected one ([onError] is not given), and the mutation is no
    longer pending. *)
Definition ChatPanel_settle (env : Fresh) (outcome : JsError + AgentResponse)
    (st : ChatPanelState) : ChatPanelState :=
  let st' := match outcome with
             | inr response => ChatPanel_onSuccess env response st
             | inl _ => st
             end in
  {| isOpen := isOpen st'; messages := messages st'; isPending := false |}.

(** One exchange: a send, and the settling of its request against [net]. *)
Definition ChatPanel_exchange (net : Request → FetchOutcome AgentResponse)
    (env_send env_settle : Fresh) (content : jsstring) (st : ChatPanelState)
  : ChatPanelState :=
  let sent := ChatPanel_handleSend env_send content st in
  ChatPanel_settle env_settle (run net sent.2).2 sent.1.

End ChatPanel.

(** A network whose agent answers every request with 200 and one reply. *)
Definition agent_replies (r : Request) : FetchOutcome AgentResponse :=
  Fulfilled
    {| res_status := 200; res_text := lit "";
       res_json :=
         Some {| resp_message := lit "Created src/Button.tsx";
                 resp_actions :=
                   Some [ {| action_type := file_created;
                             action_path := lit "src/Button.tsx" |} ] |} |}.

(** ** src/client/src/components/layout/IconSidebar.tsx *)

Inductive Icon : Type := Layout | Code | Database | TestTube.

Record NavItem : Type := mkNavItem {
  nav_id : ModuleType;
  nav_icon : Icon;
  nav_label : jsstring;
}.

Definition NAV_ITEMS : list NavItem :=
  [ {| nav_id := prototype; nav_icon := Layout; nav_label := lit "Prototype" |};
    {| nav_id := frontend; nav_icon := Code; nav_label := lit "Frontend" |};
    {| nav_id := dbml; nav_icon := Database; nav_label := lit "DBML" |};
    {| nav_id := tests; nav_icon := TestTube; nav_label := lit "Tests" |} ].

(** A rendered navigation button: its label, [aria-pressed], and the
    argument its [onClick] gives to [onModuleChange]. *)
Record NavButton : Type := mkNavButton {
  aria_label : jsstring;
  aria_pressed : bool;
  on_click : ModuleType;
}.

Definition IconSidebar (activeModule : ModuleType) : list NavButton :=
  (λ item,
     let isActive := bool_decide (activeModule = nav_id item) in
     {| aria_label := nav_label item; aria_pressed := isActive;
        on_click := nav_id item |}) <$> NAV_ITEMS.

(** ** src/client/src/components/preview/PreviewPane.tsx *)

Definition MODULE_LABELS (m : ModuleType) : jsstring :=
  match m with
  | prototype => lit "Prototype Preview"
  | frontend => lit "Frontend Preview"
  | dbml => lit "Database Schema"
  | tests => lit "Test Results"
  end.

Record PreviewPaneState : Type := mkPreviewPaneState {
  refreshKey : N;
  pp_isLoading : bool;
  hasError : bool;
}.

(** What the component renders: the header (label and URL), the iframe
    (key, src, title) and which overlays are shown. *)
Record PreviewPaneView : Type := mkPreviewPaneView {
  header_label : jsstring;
  header_url : jsstring;
  iframe_key : N;
  iframe_src : jsstring;
  iframe_title : jsstring;
  loading_overlay : bool;
  error_overlay : bool;
}.

Section PreviewPane.

Variable __API_URL__ : jsstring.

Definition PreviewPane (activeModule : ModuleType) (userId projectId : jsstring)
    (st : PreviewPaneState) : PreviewPaneView :=
  let previewUrl :=
    previewUrl __API_URL__ userId projectId (ModuleType_str activeModule) in
  {| header_label := MODULE_LABELS activeModule;
     header_url := previewUrl;
     iframe_key := refreshKey st;
     iframe_src := previewUrl;
     iframe_title := ModuleType_str activeModule ++ lit " preview";
     loading_overlay := pp_isLoading st && negb (hasError st);
     error_overlay := hasError st |}.

End PreviewPane.

(** The [previewUrl] of the other [PreviewPane] among the sources
    (src/unnamed/part_003), which does not go through lib/api.ts. *)
Definition PreviewPane_part_003_previewUrl (activeModule : ModuleType)
    (userId projectId : jsstring) : jsstring :=
  lit "/connect/" ++ userId ++ lit "/" ++ projectId ++ lit "/"
  ++ ModuleType_str activeModule ++ lit "/".

(** ** src/client/src/components/sidebar/ListModule.tsx *)

Definition leaf (name path : string) : FileNode :=
  mkFileNode (lit name) (lit path) file None.

Definition MOCK_FILES : list FileNode :=
  [ mkFileNode (lit "src") (lit "/src") directory
      (Some
         [ leaf "index.html" "/src/index.html";
           leaf "App.tsx" "/src/App.tsx";
           leaf "styles.css" "/src/styles.css";
           mkFileNode (lit "components") (lit "/src/components") directory
             (Some
                [ leaf "Header.tsx" "/src/components/Header.tsx";
                  leaf "Footer.tsx" "/src/components/Footer.tsx" ]) ]);
    leaf "package.json" "/package.json";
    leaf "README.md" "/README.md" ].

(** One rendered [FileTreeItem] button: the node it shows, its depth, and
    the chevron state of a directory.  (Icons and styling are left out.) *)
Record TreeRow : Type := mkTreeRow {
  row_name : jsstring;
  row_path : jsstring;
  row_type : NodeType;
  row_depth : nat;
  row_isOpen : bool;
}.

(** The [isOpen] states of the mounted items, by node path (the React key);
    an item that was never toggled has its initial state [depth === 0]. *)
Definition item_isOpen (opened : gmap (list N) bool) (depth : nat)
    (path : jsstring) : bool :=
  default (bool_decide (depth = 0%nat)) (opened !! path).

Fixpoint FileTreeItem (opened : gmap (list N) bool) (depth : nat)
    (node : FileNode) : list TreeRow :=
  match node with
  | mkFileNode name path type children =>
      let isOpen := item_isOpen opened depth path in
      let isDirectory := bool_decide (type = directory) in
      {| row_name := name; row_path := path; row_type := type;
         row_depth := depth; row_isOpen := isOpen |}
      :: (if isDirectory && isOpen
          then match children with
               | Some cs => cs ≫= FileTreeItem opened (S depth)
               | None => []
               end
          else [])
  end.

Inductive ListModuleEffect : Type :=
| setFilter (value : jsstring)
| setIsOpen (path : jsstring) (value : bool)
| onFileSelect (path : jsstring).

(** [onClick] of the button of an item. *)
Definition FileTreeItem_onClick (opened : gmap (list N) bool) (depth : nat)
    (node : FileNode) (onSelect : jsstring → list ListModuleEffect)
  : list ListModuleEffect :=
  if bool_decide (node_type node = directory)
  then [setIsOpen (node_path node)
          (negb (item_isOpen opened depth (node_path node)))]
  else onSelect (node_path node).

(** [handleSelect]: [onFileSelect?.(path)]. *)
Definition handleSelect (has_onFileSelect : bool) (path : jsstring)
  : list ListModuleEffect :=
  if has_onFileSelect then [onFileSelect path] else [].

Record ListModuleState : Type := mkListModuleState {
  filter : jsstring;
  opened : gmap (list N) bool;
}.

(** What [ListModule] renders: the value of the filter input, the rows of
    the tree, and the requests its hooks start (it calls [useState] only). *)
Record ListModuleView : Type := mkListModuleView {
  filter_value : jsstring;
  tree_rows : list TreeRow;
  hook_requests : list Request;
}.

Definition ListModule (st : ListModuleState) : ListModuleView :=
  {| filter_value := filter st;
     tree_rows := MOCK_FILES ≫= FileTreeItem (opened st) 0;
     hook_requests := [] |}.

(** The state after an effect of one of the handlers. *)
Definition ListModule_apply (e : ListModuleEffect) (st : ListModuleState)
  : ListModuleState :=
  match e with
  | setFilter v => {| filter := v; opened := opened st |}
  | setIsOpen p b => {| filter := filter st; opened := <[p := b]> (opened st) |}
  | onFileSelect _ => st
  end.

(** ** The shell (AppShell, src/unnamed/part_002) and the application
    (the App component that follows the helpers in src/client/src/lib/api.ts) *)

Record AppShellView : Type := mkAppShellView {
  shell_sidebar : list NavButton;
  shell_files : ListModuleView;
  shell_preview : PreviewPaneView;
}.

Section App.

Variable __API_URL__ : jsstring.

Definition AppShell (activeModule : ModuleType) (userId projectId : jsstring)
    (files : ListModuleState) (preview : PreviewPaneState) : AppShellView :=
  {| shell_sidebar := IconSidebar activeModule;
     shell_files := ListModule files;
     shell_preview :=
       PreviewPane __API_URL__ activeModule userId projectId preview |}.

(** [App]: the state [activeModule] starts as ['prototype']; the user and
    project are the placeholders of the source. *)
Definition App_initial : ModuleType := prototype.
Definition App_userId : jsstring := lit "demo-user".
Definition App_projectId : jsstring := lit "demo-project".

Definition App (activeModule : ModuleType) (files : ListModuleState)
    (preview : PreviewPaneState) : AppShellView :=
  AppShell activeModule App_userId App_projectId files preview.

End App.

(** A click on one of the navigation buttons: [onModuleChange] is
    [setActiveModule]. *)
Inductive App_click : ModuleType → ModuleType → Prop :=
| click_nav (activeModule : ModuleType) (b : NavButton) :
    b ∈ IconSidebar activeModule → App_click activeModule (on_click b).

(** The values [activeModule] can take. *)
Definition App_reachable (m : ModuleType) : Prop := rtc App_click App_initial m.

(** ** The module table of the plan (TABS, src/unnamed/part_000) *)

Record Tab : Type := mkTab {
  tab_id : jsstring;
  tab_label : jsstring;
  tab_port : N;
}.

Definition TABS : list Tab :=
  [ {| tab_id := lit "prototype"; tab_label := lit "Prototype"; tab_port := 3001 |};
    {| tab_id := lit "frontend"; tab_label := lit "Frontend"; tab_port := 3002 |};
    {| tab_id := lit "dbml"; tab_label := lit "DBML"; tab_port := 3003 |};
    {| tab_id := lit "tests"; tab_label := lit "Tests"; tab_port := 3004 |} ].

(** Modelled from the spec: the Sandbox Instance operation
    [module_port(module)] and the Gateway Router's proxy target
    [http://localhost:{module_port}/{path}] (gateway/router.py and
    sandbox/process_manager.py are not among the sources).  The port of a
    module is read off the static table; an unknown module has none
    ([UnknownModule]). *)
Definition module_port (module : jsstring) : option N :=
  tab_port <$> find (λ t, bool_decide (tab_id t = module)) TABS.

(** The decimal digits of a number, as a template literal prints it. *)
Definition decimal (n : N) : jsstring :=
  lit (NilZero.string_of_uint (N.to_uint n)).

(** Modelled from the spec: the target the Gateway Router proxies a
    request to, [http://localhost:{module_port}/{path}] (gateway/router.py is
    not among the sources). *)
Definition proxy_target (module path : jsstring) : option jsstring :=
  (λ port, lit "http://localhost:" ++ decimal port ++ lit "/" ++ path)
    <$> module_port module.

(** ** Path Security

    The implementation (security/utils.py) is not among the sources: this
    part follows sections 4.1 and 8 of the specification.  A path is a
    string, given by its character codes as the strings of the client are;
    a resolved path is the list of its segments from the file system
    root. *)

(** [s.split(sep)]: the segments between the separators. *)
Fixpoint split_on (sep : N) (s : jsstring) : list jsstring :=
  match s with
  | [] => [[]]
  | c :: rest =>
      if c =? sep then [] :: split_on sep rest
      else match split_on sep rest with
           | seg :: segs => (c :: seg) :: segs
           | [] => [[c]]
           end
  end.

(** Does [needle] occur in [s]? *)
Fixpoint occurs_in (needle s : jsstring) : bool :=
  bool_decide (needle `prefix_of` s)
  || match s with
     | [] => false
     | _ :: rest => occurs_in needle rest
     end.

(** Modelled from the spec: the lexical normalisation of a path (the
    implementation is not among the sources).  Empty and [.] segments are
    dropped and [..] removes the segment before it. *)
Definition normalize_step (stack : list jsstring) (seg : jsstring)
  : list jsstring :=
  if bool_decide (seg = lit "") || bool_decide (seg = lit ".") then stack
  else if bool_decide (seg = lit "..") then tail stack
  else seg :: stack.

(** Modelled from the spec: a normalised path, see [normalize_step]. *)
Definition normalize (segs : list jsstring) : list jsstring :=
  reverse (foldl normalize_step [] segs).

(** A segment that names an entry: not empty, not [.], not [..]. *)
Definition clean_segment (seg : jsstring) : Prop :=
  seg ≠ lit "" ∧ seg ≠ lit "." ∧ seg ≠ lit "..".

(** Modelled from the spec: what it is for a path to be inside the module
    root and not the root itself (the implementation is not among the
    sources).  [abs] is strictly below [root], after normalisation of
    both. *)
Definition is_within (root abs : list jsstring) : bool :=
  bool_decide (normalize root `prefix_of` normalize abs)
  && negb (bool_decide (normalize root = normalize abs)).

Inductive PathError : Type := PathTraversal.

(** Modelled from the spec: the ways of escaping the module root that the
    specification names (the implementation is not among the sources): a
    [..] segment, an absolute path, a null byte or control character, and a
    separator hidden by percent-encoding. *)
Definition has_dotdot_segment (p : jsstring) : bool :=
  bool_decide (lit ".." ∈ split_on 47 p).

Definition is_absolute (p : jsstring) : bool :=
  match p with c :: _ => c =? 47 | [] => false end.

Definition has_control_character (p : jsstring) : bool :=
  existsb (λ c, (c <? 0x20) || (c =? 0x7F)) p.

Definition has_encoded_separator (p : jsstring) : bool :=
  existsb (λ enc, occurs_in (lit enc) p) ["%2f"; "%2F"; "%5c"; "%5C"]%string.

Section PathSecurity.

(** The file system's resolution of symbolic links, on absolute paths
    given by their segments. *)
Variable realpath : list jsstring → list jsstring.

(** Modelled from the spec: the Path Security operation
    [resolve(module_root, user_supplied_relative_path)]
    (security/utils.py is not among the sources).  It fails with
    [PathTraversal] on an empty path, on a null byte or control character,
    on an encoded separator, on an absolute path, on a [..] segment, on a
    path that resolves to the module root itself and on an escape through a
    symbolic link; otherwise it returns the path below the module root.
    Paths are lists of segments from the file system root. *)
Definition resolve (module_root : list jsstring) (p : jsstring)
  : PathError + list jsstring :=
  if bool_decide (p = lit "") then inl PathTraversal
  else if has_control_character p then inl PathTraversal
  else if has_encoded_separator p then inl PathTraversal
  else if is_absolute p then inl PathTraversal
  else if has_dotdot_segment p then inl PathTraversal
  else
    let base := normalize module_root in
    let candidate := base ++ normalize (split_on 47 p) in
    if bool_decide (candidate = base) then inl PathTraversal
    else if negb (is_within (realpath base) (realpath candidate))
    then inl PathTraversal
    else inr candidate.

End PathSecurity.

(** ** More of PreviewPane.tsx: the handlers and the effect *)

(** [prev + 1] on the counter [refreshKey], a JavaScript number: exact up
    to 2^53, where the increment no longer changes it. *)
Definition js_succ (n : N) : N := if n <? 2 ^ 53 then n + 1 else n.

Definition handleRefresh (st : PreviewPaneState) : PreviewPaneState :=
  {| refreshKey := js_succ (refreshKey st);
     pp_isLoading := pp_isLoading st; hasError := hasError st |}.

Definition handleIframeLoad (st : PreviewPaneState) : PreviewPaneState :=
  {| refreshKey := refreshKey st; pp_isLoading := false;
     hasError := hasError st |}.

Definition handleIframeError (st : PreviewPaneState) : PreviewPaneState :=
  {| refreshKey := refreshKey st; pp_isLoading := false; hasError := true |}.

(** The body of the effect: [setIsLoading(true); setHasError(false)]. *)
Definition PreviewPane_effect (st : PreviewPaneState) : PreviewPaneState :=
  {| refreshKey := refreshKey st; pp_isLoading := true; hasError := false |}.

(** [useEffect(..., [activeModule, refreshKey])] after a render: the effect
    runs on the first render ([previous] is [None]) and whenever one of the
    two dependencies differs from the previous render. *)
Definition PreviewPane_commit (previous : option (ModuleType * N))
    (activeModule : ModuleType) (st : PreviewPaneState) : PreviewPaneState :=
  if bool_decide (previous = Some (activeModule, refreshKey st))
  then st else PreviewPane_effect st.

(** What can happen to a mounted [PreviewPane]: a click on refresh (or on
    Retry), the [load] and [error] events of the iframe, and a new
    [activeModule] prop. *)
Inductive PreviewEvent : Type :=
| pv_refresh
| pv_load
| pv_error
| pv_module (m : ModuleType).

(** The prop and state after an event, the effect included. *)
Definition PreviewPane_step (e : PreviewEvent)
    (s : ModuleType * PreviewPaneState) : ModuleType * PreviewPaneState :=
  let next :=
    match e with
    | pv_refresh => (s.1, handleRefresh s.2)
    | pv_load => (s.1, handleIframeLoad s.2)
    | pv_error => (s.1, handleIframeError s.2)
    | pv_module m => (m, s.2)
    end in
  (next.1, PreviewPane_commit (Some (s.1, refreshKey s.2)) next.1 next.2).

(** Is the event a click on refresh? *)
Definition is_refresh (e : PreviewEvent) : bool :=
  match e with pv_refresh => true | _ => false end.

(** The prop and state after a sequence of events. *)
Definition PreviewPane_run (events : list PreviewEvent)
    (s : ModuleType * PreviewPaneState) : ModuleType * PreviewPaneState :=
  foldl (λ s e, PreviewPane_step e s) s events.

(** The state after the first render: the [useState] initial values, on
    which the effect has run. *)
Definition PreviewPane_mount (activeModule : ModuleType) : PreviewPaneState :=
  PreviewPane_commit None activeModule
    {| refreshKey := 0; pp_isLoading := true; hasError := false |}.

#[global] Instance Role_eq_dec : EqDecision Role.
Proof. solve_decision. Defined.

(** ** MessageList (the component that follows PreviewPane in
    src/client/src/components/preview/PreviewPane.tsx) *)

(** One message bubble: its key, its side ([justify-end] for the user),
    its text and the time it shows. *)
Record Bubble : Type := mkBubble {
  bubble_key : jsstring;
  bubble_right : bool;
  bubble_text : jsstring;
  bubble_time : Z;
}.

Record MessageListView : Type := mkMessageListView {
  placeholder : bool;
  bubbles : list Bubble;
  typing_indicator : bool;
}.

Definition MessageList (messages : list Message) (isLoading : option bool)
  : MessageListView :=
  {| placeholder :=
       bool_decide (length messages = 0%nat) && negb (truthy_opt isLoading);
     bubbles :=
       (λ message,
          {| bubble_key := msg_id message;
             bubble_right := bool_decide (msg_role message = user);
             bubble_text := msg_content message;
             bubble_time := msg_timestamp message |}) <$> messages;
     typing_indicator := truthy_opt isLoading |}.

(** ** More of ChatPanel.tsx: what it renders, and its events *)

(** The panel is the round button when closed; when open it shows the
    message list and the input, both given [isPending] as [isLoading]. *)
Inductive ChatPanelView : Type :=
| PanelClosed
| PanelOpen (list_view : MessageListView) (input_isLoading : option bool).

Definition ChatPanel_view (st : ChatPanelState) : ChatPanelView :=
  if isOpen st
  then PanelOpen (MessageList (messages st) (Some (isPending st)))
                 (Some (isPending st))
  else PanelClosed.

(** What can happen to the panel: the open button, the minimize and close
    buttons, a submit of the input holding [message], and the settling of
    the pending request. *)
Inductive ChatEvent : Type :=
| ev_open
| ev_close
| ev_submit (env : Fresh) (message : jsstring)
| ev_settle (env : Fresh) (outcome : JsError + AgentResponse).

Section ChatSession.

Variable __API_URL__ : jsstring.
Variables userId projectId : jsstring.
Variable activeModule : ModuleType.

(** The panel after the effects of a handler of its [ChatInput], whose
    [onSend] is [handleSend]. *)
Definition ChatPanel_after_input (env : Fresh)
    (effects : list ChatInputEffect) (st : ChatPanelState) : ChatPanelState :=
  foldl (λ s e,
           match e with
           | onSend text =>
               (ChatPanel_handleSend __API_URL__ userId projectId activeModule
                  env text s).1
           | _ => s
           end) st effects.

(** The panel after an event.  The input exists only while the panel is
    open, and a request settles only while the mutation is pending. *)
Definition ChatPanel_step (e : ChatEvent) (st : ChatPanelState)
  : ChatPanelState :=
  match e with
  | ev_open =>
      {| isOpen := true; messages := messages st; isPending := isPending st |}
  | ev_close =>
      {| isOpen := false; messages := messages st; isPending := isPending st |}
  | ev_submit env message =>
      if isOpen st
      then ChatPanel_after_input env
             (handleSubmit (Some (isPending st)) message) st
      else st
  | ev_settle env outcome =>
      if isPending st
      then ChatPanel_settle env outcome st
      else st
  end.

Definition ChatPanel_run (events : list ChatEvent) (st : ChatPanelState)
  : ChatPanelState :=
  foldl (λ s e, ChatPanel_step e s) st events.

End ChatSession.

(** The [useState] initial values of the panel, with an idle mutation. *)
Definition ChatPanel_initial : ChatPanelState :=
  {| isOpen := false; messages := []; isPending := false |}.

(** Every assistant message comes directly after a user message
    ([after_user] says whether the list itself comes after one). *)
Fixpoint replies_follow_users (after_user : bool) (msgs : list Message) : bool :=
  match msgs with
  | [] => true
  | m :: rest =>
      match msg_role m with
      | user => replies_follow_users true rest
      | assistant => after_user && replies_follow_users false rest
      end
  end.

(** Is the last message the user's? *)
Definition last_is_user (msgs : list Message) : bool :=
  match last msgs with
  | Some m => bool_decide (msg_role m = user)
  | None => false
  end.

(** What every state of the panel keeps: each assistant message directly
    follows a user message, the last message is the user's while a request
    is pending, and the user's messages are trimmed and not empty. *)
Definition conversation_ok (st : ChatPanelState) : Prop :=
  replies_follow_users false (messages st) = true
  ∧ (isPending st = true → last_is_user (messages st) = true)
  ∧ Forall (λ m, msg_role m = user →
                 msg_content m ≠ [] ∧ trim (msg_content m) = msg_content m)
           (messages st).

(** ** More of useSandbox.ts: the hook *)

(** The key of the file-tree query,
    [['fileTree', userId, projectId, module]]. *)
Definition fileTree_queryKey (userId projectId module : jsstring)
  : list jsstring :=
  [lit "fileTree"; userId; projectId; module].

(** [queryClient.invalidateQueries({ queryKey })]: the queries whose key
    starts with the given key are the ones marked stale. *)
Definition invalidates (given key : list jsstring) : bool :=
  bool_decide (given `prefix_of` key).

(** The write mutation of the hook: how [writeFile] settled, and the keys
    its [onSuccess] invalidated. *)
Definition writeFileMutation {T} (net : Request → FetchOutcome T)
    (userId projectId module path content : jsstring)
  : (JsError + ()) * list (list jsstring) :=
  let settled := (run net (writeFile userId projectId module path content)).2 in
  (settled,
   match settled with
   | inr _ => [fileTree_queryKey userId projectId module]
   | inl _ => []
   end).

(** ** The development server configuration (src/client/vite.config.ts and
    its later version, src/unnamed/part_005) *)

Record ProxyRule : Type := mkProxyRule {
  proxy_context : jsstring;
  proxy_rule_target : jsstring;
  changeOrigin : bool;
}.


(** [a || b] where [a] may be [undefined] (a variable the environment does
    not set). *)
Definition env_or (a : option jsstring) (b : jsstring) : jsstring :=
  match a with Some s => or_else s b | None => b end.

Section ViteConfig.

(** [env.VITE_API_URL], as [loadEnv] gives it. *)
Variable VITE_API_URL : option jsstring.

(** [define.__API_URL__] of src/unnamed/part_005: the string that replaces
    [__API_URL__] in the client. *)
Definition vite_define_API_URL : jsstring := env_or VITE_API_URL (lit "").

(** [server.proxy] of src/unnamed/part_005. *)
Definition vite_proxy_env : list ProxyRule :=
  [ {| proxy_context := lit "/connect";
       proxy_rule_target := env_or VITE_API_URL (lit "http://localhost:8000");
       changeOrigin := true |};
    {| proxy_context := lit "/agent";
       proxy_rule_target := env_or VITE_API_URL (lit "http://localhost:8000");
       changeOrigin := true |} ].

End ViteConfig.

(** The rule the development server applies to a request URL: the first
    rule whose context the URL starts with (none of the contexts here is a
    regular expression). *)
Definition proxy_rule_for (rules : list ProxyRule) (url : jsstring)
  : option ProxyRule :=
  find (λ rule, bool_decide (proxy_context rule `prefix_of` url)) rules.

(** The target the development server forwards a request to, if a rule
    applies to its URL. *)
Definition proxy_target_for (rules : list ProxyRule) (url : jsstring)
  : option jsstring :=
  proxy_rule_target <$> proxy_rule_for rules url.

(** ** More of ListModule.tsx: the icon of a file, the nodes of a tree *)

Inductive FileIcon : Type := FileCode | FileJson | FileText | File.

Section GetFileIcon.

(** [String.prototype.toLowerCase], the platform's. *)
Variable toLowerCase : jsstring → jsstring.

(** [name.split('.').pop()?.toLowerCase()]; [split] never gives an empty
    array, so [pop] always gives a string. *)
Definition file_extension (name : jsstring) : jsstring :=
  toLowerCase (default [] (last (split_on 46 name))).

Definition getFileIcon (name : jsstring) : FileIcon :=
  let ext := file_extension name in
  if bool_decide (ext ∈ [lit "tsx"; lit "ts"; lit "jsx"; lit "js"]) then FileCode
  else if bool_decide (ext = lit "json") then FileJson
  else if bool_decide (ext ∈ [lit "md"; lit "txt"]) then FileText
  else File.

End GetFileIcon.

(** A node and all the nodes below it, in the order of the tree. *)
Fixpoint tree_nodes (node : FileNode) : list FileNode :=
  node :: match node with
          | mkFileNode _ _ _ (Some cs) => cs ≫= tree_nodes
          | mkFileNode _ _ _ None => []
          end.

(** ** More of the shell: the chat panel it mounts *)

(** [<ChatPanel userId projectId activeModule />] in [AppShell]: what a
    send from the panel of the shell starts. *)
Definition AppShell_chat_send (api : jsstring) (activeModule : ModuleType)
    (userId projectId : jsstring) (env : Fresh) (content : jsstring)
    (st : ChatPanelState)
  : ChatPanelState * Async AgentResponse AgentResponse :=
  ChatPanel_handleSend api userId projectId activeModule env content st.

(** * Properties *)

(** ** URL helpers *)

(** [apiUrl] prepends the build-time URL, whatever it is: when it is empty
    the path comes back unchanged. *)
Lemma apiUrl_app (api path : jsstring) : apiUrl api path = api ++ path.
Proof. unfold apiUrl, API_URL, or_else. by destruct api. Qed.

Lemma app_ne_self_r {A} (l k : list A) : l ≠ [] → l ++ k ≠ k.
Proof.
  intros Hl Heq. apply (f_equal length) in Heq.
  rewrite length_app in Heq. destruct l; [done|]. cbn in Heq. lia.
Qed.

(** Claim C8.  For every user, project and module, and for every value of
    the build-time API URL, empty or not, the [src] of the iframe that
    [PreviewPane] renders is the result of the [previewUrl] helper, that is
    [apiUrl] applied to [/connect/{userId}/{projectId}/{module}/], which is
    the API URL followed by that path. *)
Theorem PreviewPane_iframe_src_is_previewUrl
    (api userId projectId : jsstring) (activeModule : ModuleType)
    (st : PreviewPaneState) :
  let path := lit "/connect/" ++ userId ++ lit "/" ++ projectId ++ lit "/"
              ++ ModuleType_str activeModule ++ lit "/" in
  iframe_src (PreviewPane api activeModule userId projectId st)
    = previewUrl api userId projectId (ModuleType_str activeModule)
  ∧ previewUrl api userId projectId (ModuleType_str activeModule)
    = apiUrl api path
  ∧ apiUrl api path = api ++ path.
Proof.
  cbv zeta. split; [reflexivity|]. split; [reflexivity|]. apply apiUrl_app.
Qed.

(** The URL of the [PreviewPane] of src/unnamed/part_003 is the one above
    exactly when the build-time API URL is empty. *)
Lemma PreviewPane_part_003_agrees_iff
    (api userId projectId : jsstring) (activeModule : ModuleType)
    (st : PreviewPaneState) :
  PreviewPane_part_003_previewUrl activeModule userId projectId
    = iframe_src (PreviewPane api activeModule userId projectId st)
  ↔ api = [].
Proof.
  cbn. unfold previewUrl. rewrite apiUrl_app. unfold PreviewPane_part_003_previewUrl.
  split.
  - intros Heq. destruct (decide (api = [])) as [|Hne]; [done|].
    exfalso. eapply app_ne_self_r; [exact Hne|]. symmetry. exact Heq.
  - intros ->. reflexivity.
Qed.

(** ** Running one request *)

Lemma run_bind_await {T A} (net : Request → FetchOutcome T) (req : Request)
    (f : Response T → Async T A) :
  run net (Async_bind (await_fetch req) f)
  = match net req with
    | Fulfilled r => (req :: (run net (f r)).1, (run net (f r)).2)
    | Failed e => ([req], inl e)
    end.
Proof. cbn. by destruct (net req). Qed.

(** The step the proofs about one request share: the function awaits one
    fetch, and the proof goes by what the network answered. *)
Ltac run_one_fetch net r e :=
  rewrite run_bind_await;
  let req := fresh "req" in
  set (req := mkRequest _ _ _ _);
  destruct (net req) as [r|e] eqn:?.

(** ** The file API calls of useSandbox *)

(** Claim C2.  Writing a file issues exactly one request: a POST to
    [/connect/{user}/{project}/{module}/api/files] with a JSON body
    [{path, content}].  The write succeeds if and only if the request got a
    response whose status is ok; on a response that is not ok it fails with
    the error ['Failed to write file'] (and when the fetch itself is
    rejected, with that rejection). *)
Theorem writeFile_request_and_outcome {T}
    (userId projectId module path content : jsstring)
    (net : Request → FetchOutcome T) :
  let req :=
    {| req_url := lit "/connect/" ++ userId ++ lit "/" ++ projectId ++ lit "/"
                  ++ module ++ lit "/api/files";
       req_method := POST;
       req_headers := [(lit "Content-Type", lit "application/json")];
       req_body := Some (JObj [(lit "path", JStr path);
                               (lit "content", JStr content)]) |} in
  let result := run net (writeFile userId projectId module path content) in
  result.1 = [req]
  ∧ result.2 = match net req with
               | Fulfilled r =>
                   if res_ok r then inr ()
                   else inl (Error (lit "Failed to write file"))
               | Failed e => inl e
               end
  ∧ (result.2 = inr () ↔ ∃ r, net req = Fulfilled r ∧ res_ok r = true).
Proof.
  cbv zeta. unfold writeFile, json_headers.
  cbn [JSON_stringify omap list_omap fmap option_fmap option_map fst snd].
  run_one_fetch net r e.
  - destruct (res_ok r) eqn:Hok; cbn.
    + split; [done|]. split; [done|]. split; [eauto|done].
    + split; [done|]. split; [done|].
      split; [done|]. intros (r' & Hr' & Hok'). congruence.
  - cbn. split; [done|]. split; [done|].
    split; [done|]. intros (r' & Hr' & _). congruence.
Qed.

(** Claim C3.  Listing the files issues exactly one request, a GET of
    [/connect/{user}/{project}/{module}/api/files] with nothing after it,
    and yields the listing the response carries.  Reading a file issues a
    GET of the same URL followed by [?path=] and the URL-encoded path, and
    yields the file the response carries (a path that cannot be encoded, one
    with a lone surrogate, makes [encodeURIComponent] throw before any
    request).  In both, a response that is not ok makes the call fail with an
    error. *)
Theorem fetchFileTree_and_readFile_requests
    (userId projectId module path : jsstring)
    (net_list : Request → FetchOutcome (list FileNode))
    (net_read : Request → FetchOutcome SandboxFile) :
  let files_url := lit "/connect/" ++ userId ++ lit "/" ++ projectId ++ lit "/"
                   ++ module ++ lit "/api/files" in
  let get (u : jsstring) :=
    {| req_url := u; req_method := GET; req_headers := [];
       req_body := None |} in
  run net_list (fetchFileTree userId projectId module)
  = ([get files_url],
     match net_list (get files_url) with
     | Fulfilled r =>
         if res_ok r
         then match res_json r with
              | Some listing => inr listing
              | None => inl SyntaxError
              end
         else inl (Error (lit "Failed to fetch file tree"))
     | Failed e => inl e
     end)
  ∧ run net_read (readFile userId projectId module path)
    = match encodeURIComponent path with
      | Some encoded =>
          ([get (files_url ++ lit "?path=" ++ encoded)],
           match net_read (get (files_url ++ lit "?path=" ++ encoded)) with
           | Fulfilled r =>
               if res_ok r
               then match res_json r with
                    | Some content => inr content
                    | None => inl SyntaxError
                    end
               else inl (Error (lit "Failed to read file"))
           | Failed e => inl e
           end)
      | None => ([], inl URIError)
      end.
Proof.
  cbv zeta. split.
  - unfold fetchFileTree, plain_get.
    run_one_fetch net_list r e; [|done].
    unfold json. destruct (res_ok r); [|done].
    by destruct (res_json r).
  - unfold readFile, plain_get.
    destruct (encodeURIComponent path) as [encoded|]; [|done].
    replace (lit "/connect/" ++ userId ++ lit "/" ++ projectId ++ lit "/"
             ++ module ++ lit "/api/files?path=" ++ encoded)
      with ((lit "/connect/" ++ userId ++ lit "/" ++ projectId ++ lit "/"
             ++ module ++ lit "/api/files") ++ lit "?path=" ++ encoded)
      by (rewrite <- !app_assoc; reflexivity).
    run_one_fetch net_read r e; [|done].
    unfold json. destruct (res_ok r); [|done].
    by destruct (res_json r).
Qed.

(** ** The agent hook *)

Lemma stringify_history (h : list Message) :
  (λ x, default JNull (JSON_stringify x)) <$>
    ((λ m, VObject [(lit "role", VString (Role_str (msg_role m)));
                    (lit "content", VString (msg_content m))]) <$> h)
  = (λ m, JObj [(lit "role", JStr (Role_str (msg_role m)));
                (lit "content", JStr (msg_content m))]) <$> h.
Proof. rewrite <- list_fmap_compose. by apply list_fmap_ext. Qed.

(** Claim C4.  Sending a chat message issues exactly one request: a POST to
    [/agent/chat] (on the build-time API URL) whose JSON body has the field
    [message], then the field [chat_history] when the hook was given a chat
    history (the list of the [{role, content}] of its messages) and no such
    field otherwise, then the field [context] with [userId], [projectId] and
    [activeModule]; and nothing else.  The chat panel of the dashboard gives
    no chat history, so its requests have [message] and [context] only. *)
Theorem agent_chat_request
    (api userId projectId message : jsstring) (activeModule : ModuleType)
    (chatHistory : option (list Message))
    (net : Request → FetchOutcome AgentResponse)
    (env : Fresh) (st : ChatPanelState) :
  let context :=
    JObj [(lit "userId", JStr userId); (lit "projectId", JStr projectId);
          (lit "activeModule", JStr (ModuleType_str activeModule))] in
  let chat_history :=
    match chatHistory with
    | Some h =>
        [(lit "chat_history",
          JArr ((λ m, JObj [(lit "role", JStr (Role_str (msg_role m)));
                            (lit "content", JStr (msg_content m))]) <$> h))]
    | None => []
    end in
  let post (body : Json) :=
    {| req_url := api ++ lit "/agent/chat"; req_method := POST;
       req_headers := [(lit "Content-Type", lit "application/json")];
       req_body := Some body |} in
  (run net (useAgent_mutationFn api userId projectId activeModule
              chatHistory message)).1
  = [post (JObj ([(lit "message", JStr message)] ++ chat_history
                 ++ [(lit "context", context)]))]
  ∧ (run net (ChatPanel_handleSend api userId projectId activeModule
                env message st).2).1
    = [post (JObj [(lit "message", JStr message); (lit "context", context)])].
Proof.
  cbv zeta.
  assert (Hgen : ∀ ch,
    (run net (useAgent_mutationFn api userId projectId activeModule ch message)).1
    = [{| req_url := api ++ lit "/agent/chat"; req_method := POST;
          req_headers := [(lit "Content-Type", lit "application/json")];
          req_body := JSON_stringify
            (VObject
               [(lit "message", VString message);
                (lit "chat_history",
                 match ch with
                 | Some h =>
                     VArray ((λ m, VObject
                                [(lit "role", VString (Role_str (msg_role m)));
                                 (lit "content", VString (msg_content m))])
                               <$> h)
                 | None => VUndefined
                 end);
                (lit "context",
                 VObject [(lit "userId", VString userId);
                          (lit "projectId", VString projectId);
                          (lit "activeModule",
                           VString (ModuleType_str activeModule))])]) |}]).
  { intros ch. unfold useAgent_mutationFn, sendAgentMessage, json_headers, agentChatUrl.
    rewrite apiUrl_app.
    run_one_fetch net r e; [|done].
    unfold json. destruct (res_ok r); [|done]. by destruct (res_json r). }
  split.
  - rewrite Hgen. destruct chatHistory as [h|]; [|reflexivity].
    cbn [JSON_stringify omap list_omap fmap option_fmap option_map fst snd app].
    by rewrite stringify_history.
  - unfold ChatPanel_handleSend. cbn [snd]. rewrite Hgen. reflexivity.
Qed.

(** ** The chat panel *)

(** The promise of [sendAgentMessage] resolves exactly when the request
    got an ok response with a JSON body, and with that body. *)
Lemma useAgent_mutationFn_resolves
    (api userId projectId message : jsstring) (activeModule : ModuleType)
    (chatHistory : option (list Message))
    (net : Request → FetchOutcome AgentResponse) (response : AgentResponse) :
  (run net (useAgent_mutationFn api userId projectId activeModule
              chatHistory message)).2 = inr response
  ↔ ∃ req r, (run net (useAgent_mutationFn api userId projectId activeModule
                         chatHistory message)).1 = [req]
             ∧ net req = Fulfilled r ∧ res_ok r = true
             ∧ res_json r = Some response.
Proof.
  unfold useAgent_mutationFn, sendAgentMessage.
  run_one_fetch net r e; cbn [fst snd].
  - unfold json. destruct (res_ok r) eqn:Hok; cbn [negb].
    + destruct (res_json r) as [v|] eqn:Hjson; cbn [run fst snd].
      * split.
        -- intros [= ->]. by exists req, r.
        -- intros (req' & r' & [= <-] & Hr' & _ & Hj). congruence.
      * split; [done|].
        intros (req' & r' & [= <-] & Hr' & _ & Hj). congruence.
    + cbn [run fst snd]. split; [done|].
      intros (req' & r' & [= <-] & Hr' & Hok' & _). congruence.
  - split; [done|]. intros (req' & r' & [= <-] & Hr' & _). congruence.
Qed.

(** Claim C5.  In a successful exchange the response is an
    [AgentResponse], a [message] with optional [actions] that each have a
    [type] (one of the three kinds) and a [path]; the conversation then is
    what it was, followed by the user's message and, after it, by an
    assistant message whose content is exactly the [message] of the
    response. *)
Theorem chat_exchange_appends_reply
    (api userId projectId content : jsstring) (activeModule : ModuleType)
    (net : Request → FetchOutcome AgentResponse)
    (env_send env_settle : Fresh) (st : ChatPanelState)
    (response : AgentResponse) :
  (run net (ChatPanel_handleSend api userId projectId activeModule
              env_send content st).2).2 = inr response →
  messages (ChatPanel_exchange api userId projectId activeModule net
              env_send env_settle content st)
  = messages st
    ++ [ {| msg_id := randomUUID env_send; msg_role := user;
            msg_content := content; msg_timestamp := now env_send |};
         {| msg_id := randomUUID env_settle; msg_role := assistant;
            msg_content := resp_message response;
            msg_timestamp := now env_settle |} ]
  ∧ (∃ message actions,
       response = {| resp_message := message; resp_actions := actions |}
       ∧ ∀ acts a, actions = Some acts → a ∈ acts →
           ∃ type path,
             a = {| action_type := type; action_path := path |}
             ∧ type ∈ [file_created; file_modified; file_deleted]).
Proof.
  intros Hok. split.
  - unfold ChatPanel_exchange. rewrite Hok.
    unfold ChatPanel_settle, ChatPanel_onSuccess, ChatPanel_handleSend.
    cbn [messages fst snd]. by rewrite <- app_assoc.
  - destruct response as [message actions]. exists message, actions.
    split; [done|]. intros acts [type path] _ _. exists type, path.
    split; [done|]. destruct type; set_solver.
Qed.

(** A failed exchange leaves the user's message alone at the end. *)
Lemma chat_exchange_failure
    (api userId projectId content : jsstring) (activeModule : ModuleType)
    (net : Request → FetchOutcome AgentResponse)
    (env_send env_settle : Fresh) (st : ChatPanelState) (e : JsError) :
  (run net (ChatPanel_handleSend api userId projectId activeModule
              env_send content st).2).2 = inl e →
  messages (ChatPanel_exchange api userId projectId activeModule net
              env_send env_settle content st)
  = messages st
    ++ [ {| msg_id := randomUUID env_send; msg_role := user;
            msg_content := content; msg_timestamp := now env_send |} ].
Proof.
  intros Herr. unfold ChatPanel_exchange. rewrite Herr. reflexivity.
Qed.

(** ** The chat input *)

Lemma truthy_nonempty (s : jsstring) : truthy s = true ↔ s ≠ [].
Proof. by destruct s. Qed.

(** The two outcomes of [handleSubmit]. *)
Lemma handleSubmit_cases (isLoading : option bool) (message : jsstring) :
  (trim message ≠ [] ∧ truthy_opt isLoading = false
   ∧ handleSubmit isLoading message
     = [onSend (trim message); setMessage (lit "")])
  ∨ (¬ (trim message ≠ [] ∧ truthy_opt isLoading = false)
     ∧ handleSubmit isLoading message = []).
Proof.
  unfold handleSubmit.
  destruct (truthy (trim message)) eqn:Ht;
    destruct (truthy_opt isLoading) eqn:Hl; cbn [andb negb].
  - right. split; [|done]. by intros [_ ?].
  - left. split; [by apply truthy_nonempty|done].
  - right. split; [|done]. by intros [_ ?].
  - right. split; [|done]. intros [Hne _].
    apply truthy_nonempty in Hne. congruence.
Qed.

(** Claim C9.  [handleSubmit] calls [onSend] if and only if the trimmed
    input is not empty and no send is pending; the text it gives to
    [onSend] is the trimmed input; it clears the input (sets it to the empty
    string) exactly when it calls [onSend], and leaves it as it is otherwise;
    the send button is enabled exactly when its click submits; and Enter
    without Shift does what the send button does, after [preventDefault]
    (any other key, or Enter with Shift, does nothing). *)
Theorem ChatInput_submit (isLoading : option bool) (message : jsstring) :
  let effects := handleSubmit isLoading message in
  let submitted := ∃ text, onSend text ∈ effects in
  (submitted ↔ trim message ≠ [] ∧ truthy_opt isLoading = false)
  ∧ (∀ text, onSend text ∈ effects → text = trim message)
  ∧ (setMessage (lit "") ∈ effects ↔ submitted)
  ∧ (∀ m, setMessage m ∈ effects → m = lit "")
  ∧ (send_button_disabled isLoading message = false ↔ submitted)
  ∧ (submitted → message_after effects message = lit "")
  ∧ (¬ submitted → message_after effects message = message)
  ∧ (∀ e, handleKeyDown isLoading message e
          = if bool_decide (key e = lit "Enter") && negb (shiftKey e)
            then preventDefault :: effects else [])
  ∧ handleKeyDown isLoading message
      {| key := lit "Enter"; shiftKey := false |} = preventDefault :: effects.
Proof.
  cbv zeta. unfold handleKeyDown. cbn [key shiftKey].
  rewrite (bool_decide_eq_true_2 (lit "Enter" = lit "Enter") eq_refl).
  cbn [andb negb].
  destruct (handleSubmit_cases isLoading message)
    as [(Hne & Hidle & ->)|(Hno & ->)].
  - assert (Hsub : ∃ text, onSend text ∈ [onSend (trim message);
                                           setMessage (lit "")])
      by (exists (trim message); set_solver).
    split; [tauto|]. split; [set_solver|]. split; [set_solver|].
    split; [set_solver|]. split.
    { unfold send_button_disabled.
      apply truthy_nonempty in Hne. rewrite Hne, Hidle. tauto. }
    split; [done|]. split; [tauto|].
    split; [|done]. intros e. reflexivity.
  - assert (Hsub : ¬ ∃ text, onSend text ∈ @nil ChatInputEffect)
      by (intros [text Hin]; set_solver).
    split; [tauto|]. split; [set_solver|]. split; [set_solver|].
    split; [set_solver|]. split.
    { unfold send_button_disabled. split; [|tauto].
      intros Hen. exfalso. apply Hno.
      apply orb_false_iff in Hen as [Ht ?].
      apply negb_false_iff in Ht. split; [by apply truthy_nonempty|done]. }
    split; [tauto|]. split; [done|].
    split; [|done]. intros e. reflexivity.
Qed.

(** ** The file browser *)

(** Claim C10.  The rows of the tree that [ListModule] renders do not
    depend on the filter text: they are the items of the hard-coded
    [MOCK_FILES], each directory showing its children when it is open
    (the nodes of [MOCK_FILES], in order, and nothing else).  The shell gives
    the component neither user, project nor module, and its hooks start no
    request. *)
Theorem ListModule_shows_MOCK_FILES
    (filter1 filter2 api userId projectId : jsstring)
    (open_items : gmap (list N) bool) (activeModule : ModuleType)
    (preview : PreviewPaneState) :
  let st := {| filter := filter1; opened := open_items |} in
  let src_open := item_isOpen open_items 0 (lit "/src") in
  let components_open := item_isOpen open_items 1 (lit "/src/components") in
  tree_rows (ListModule st)
  = tree_rows (ListModule {| filter := filter2; opened := open_items |})
  ∧ tree_rows (ListModule (ListModule_apply (setFilter filter2) st))
    = tree_rows (ListModule st)
  ∧ tree_rows (ListModule st) = MOCK_FILES ≫= FileTreeItem open_items 0
  ∧ row_path <$> tree_rows (ListModule st)
    = [lit "/src"]
      ++ (if src_open
          then [lit "/src/index.html"; lit "/src/App.tsx";
                lit "/src/styles.css"; lit "/src/components"]
               ++ (if components_open
                   then [lit "/src/components/Header.tsx";
                         lit "/src/components/Footer.tsx"]
                   else [])
          else [])
      ++ [lit "/package.json"; lit "/README.md"]
  ∧ shell_files (AppShell api activeModule userId projectId st preview)
    = ListModule st
  ∧ hook_requests (ListModule st) = [].
Proof.
  cbv zeta. split; [reflexivity|]. split; [reflexivity|].
  split; [reflexivity|]. split; [|split; reflexivity].
  unfold ListModule, MOCK_FILES, leaf. cbn [tree_rows opened].
  cbn [mbind list_bind FileTreeItem].
  rewrite !(bool_decide_eq_true_2 (directory = directory) eq_refl).
  rewrite !(bool_decide_eq_false_2 (file = directory)) by done.
  cbn [andb].
  destruct (item_isOpen open_items 0 (lit "/src"));
    destruct (item_isOpen open_items 1 (lit "/src/components"));
    reflexivity.
Qed.

(** ** The modules of the client *)

Lemma NAV_ITEMS_ids : nav_id <$> NAV_ITEMS = [prototype; frontend; dbml; tests].
Proof. reflexivity. Qed.

Lemma ModuleType_in_NAV_ITEMS (m : ModuleType) : m ∈ nav_id <$> NAV_ITEMS.
Proof. rewrite NAV_ITEMS_ids. destruct m; set_solver. Qed.

(** A click on the button of an item selects the module of that item. *)
Lemma IconSidebar_click (activeModule : ModuleType) (item : NavItem) :
  item ∈ NAV_ITEMS → App_click activeModule (nav_id item).
Proof.
  intros Hin.
  apply (click_nav activeModule
           {| aria_label := nav_label item;
              aria_pressed := bool_decide (activeModule = nav_id item);
              on_click := nav_id item |}).
  unfold IconSidebar. apply list_elem_of_fmap. by exists item.
Qed.

(** Claim C6.  The modules are the four values [prototype], [frontend],
    [dbml], [tests]: the navigation lists them in exactly that order, every
    module the application can have as its active module is one of them (and
    each can be selected), a click in the navigation selects one of them,
    and the name the preview embeds in its [/connect] URL is one of the four
    names. *)
Theorem modules_closed_and_ordered
    (api : jsstring) (m : ModuleType) (files : ListModuleState)
    (preview : PreviewPaneState) :
  let names := [lit "prototype"; lit "frontend"; lit "dbml"; lit "tests"] in
  nav_id <$> NAV_ITEMS = [prototype; frontend; dbml; tests]
  ∧ ModuleType_str <$> (nav_id <$> NAV_ITEMS) = names
  ∧ m ∈ nav_id <$> NAV_ITEMS
  ∧ ModuleType_str m ∈ names
  ∧ App_reachable m
  ∧ on_click <$> shell_sidebar (App api m files preview)
    = [prototype; frontend; dbml; tests]
  ∧ aria_label <$> shell_sidebar (App api m files preview)
    = [lit "Prototype"; lit "Frontend"; lit "DBML"; lit "Tests"]
  ∧ header_label (shell_preview (App api m files preview)) = MODULE_LABELS m
  ∧ iframe_src (shell_preview (App api m files preview))
    = api ++ lit "/connect/demo-user/demo-project/" ++ ModuleType_str m
      ++ lit "/".
Proof.
  cbv zeta. split; [reflexivity|]. split; [reflexivity|].
  split; [apply ModuleType_in_NAV_ITEMS|].
  split; [destruct m; set_solver|].
  split.
  { apply rtc_once.
    destruct (list_elem_of_fmap_1 _ _ _ (ModuleType_in_NAV_ITEMS m))
      as (item & -> & Hin).
    by apply IconSidebar_click. }
  split; [reflexivity|]. split; [reflexivity|]. split; [reflexivity|].
  cbn [App AppShell shell_preview PreviewPane iframe_src].
  unfold previewUrl. rewrite apiUrl_app. f_equal.
Qed.

(** ** The ports of the modules *)

(** Claim C7.  The port of a module is fixed by the static table:
    3001 for prototype, 3002 for frontend, 3003 for dbml and 3004 for tests,
    and no other name has a port.  The proxy target of a request is computed
    from the module name (and the path) alone, as
    [http://localhost:{port}/{path}]. *)
Theorem module_ports_are_static (m : ModuleType) (path : jsstring) :
  let port := match m with
              | prototype => 3001 | frontend => 3002
              | dbml => 3003 | tests => 3004
              end in
  (λ t, (tab_id t, tab_port t)) <$> TABS
  = [(lit "prototype", 3001); (lit "frontend", 3002);
     (lit "dbml", 3003); (lit "tests", 3004)]
  ∧ module_port (ModuleType_str m) = Some port
  ∧ (∀ name, name ∉ tab_id <$> TABS → module_port name = None)
  ∧ (∀ m', module_port (ModuleType_str m') = module_port (ModuleType_str m)
           → m' = m)
  ∧ proxy_target (ModuleType_str m) path
    = Some (lit "http://localhost:" ++ decimal port ++ lit "/" ++ path)
  ∧ decimal port
    = match m with
      | prototype => lit "3001" | frontend => lit "3002"
      | dbml => lit "3003" | tests => lit "3004"
      end.
Proof.
  cbv zeta. split; [reflexivity|].
  assert (Hport : ∀ x : ModuleType,
             module_port (ModuleType_str x)
             = Some match x with
                    | prototype => 3001 | frontend => 3002
                    | dbml => 3003 | tests => 3004
                    end) by (by intros []).
  split; [apply Hport|].
  split.
  { intros name Hname. unfold module_port, TABS. cbn [find tab_id].
    cbn [fmap list_fmap tab_id] in Hname.
    repeat (case_bool_decide;
            [exfalso; apply Hname; subst name; set_solver|]).
    reflexivity. }
  split.
  { intros m'. rewrite !Hport. by destruct m', m. }
  split.
  { unfold proxy_target. by rewrite Hport. }
  by destruct m.
Qed.

(** ** Path Security *)

Lemma normalize_step_clean (stack : list jsstring) (seg : jsstring) :
  Forall clean_segment stack → Forall clean_segment (normalize_step stack seg).
Proof.
  intros Hst. unfold normalize_step.
  repeat case_bool_decide; cbn [orb]; try done.
  - destruct Hst; [constructor|done].
  - constructor; [|done]. unfold clean_segment. tauto.
Qed.

Lemma foldl_normalize_step_clean (segs stack : list jsstring) :
  Forall clean_segment stack →
  Forall clean_segment (foldl normalize_step stack segs).
Proof.
  revert stack. induction segs as [|seg segs IH]; intros stack Hst; [done|].
  cbn [foldl]. apply IH. by apply normalize_step_clean.
Qed.

Lemma normalize_clean (segs : list jsstring) :
  Forall clean_segment (normalize segs).
Proof.
  unfold normalize. apply Forall_reverse.
  apply foldl_normalize_step_clean. constructor.
Qed.

Lemma foldl_normalize_step_on_clean (segs stack : list jsstring) :
  Forall clean_segment segs →
  foldl normalize_step stack segs = reverse segs ++ stack.
Proof.
  intros Hsegs. revert stack.
  induction Hsegs as [|seg segs (Hempty & Hdot & Hdotdot) _ IH];
    intros stack; [done|].
  cbn [foldl]. rewrite IH, reverse_cons, <- app_assoc. cbn [app].
  unfold normalize_step.
  rewrite !bool_decide_eq_false_2 by done. reflexivity.
Qed.

(** Normalisation leaves a path of clean segments as it is. *)
Lemma normalize_fixed (segs : list jsstring) :
  Forall clean_segment segs → normalize segs = segs.
Proof.
  intros Hsegs. unfold normalize.
  rewrite foldl_normalize_step_on_clean by done.
  by rewrite app_nil_r, reverse_involutive.
Qed.

(** What [resolve] returns when it returns a path. *)
Lemma resolve_inr (realpath : list jsstring → list jsstring)
    (module_root : list jsstring) (p : jsstring) (abs : list jsstring) :
  resolve realpath module_root p = inr abs →
  abs = normalize module_root ++ normalize (split_on 47 p)
  ∧ abs ≠ normalize module_root
  ∧ is_within (realpath (normalize module_root)) (realpath abs) = true
  ∧ has_dotdot_segment p = false ∧ is_absolute p = false.
Proof.
  unfold resolve. intros Hres.
  repeat match type of Hres with
         | (if ?c then _ else _) = _ =>
             let H := fresh "Hc" in destruct c eqn:H; [discriminate Hres|]
         end.
  injection Hres as <-.
  split; [done|]. split; [by eapply bool_decide_eq_false_1|].
  split; [by apply negb_false_iff|]. done.
Qed.

(** Claim C1.  For every module root, a relative path with a [..] segment
    or an absolute path makes [resolve] fail with [PathTraversal]; and a
    path that [resolve] returns is never outside the module root: it is the
    normalised root followed by at least one segment, none of them empty,
    [.] or [..], and it stays below the root once symbolic links are
    resolved. *)
Theorem resolve_rejects_traversal
    (realpath : list jsstring → list jsstring)
    (module_root : list jsstring) (p : jsstring) :
  (has_dotdot_segment p = true ∨ is_absolute p = true →
   resolve realpath module_root p = inl PathTraversal)
  ∧ (∀ abs, resolve realpath module_root p = inr abs →
       is_within module_root abs = true
       ∧ is_within (realpath (normalize module_root)) (realpath abs) = true
       ∧ ∃ rest, rest ≠ [] ∧ abs = normalize module_root ++ rest
                 ∧ Forall clean_segment rest).
Proof.
  split.
  - intros Hbad.
    destruct (resolve realpath module_root p) as [[]|abs] eqn:Hres; [done|].
    apply resolve_inr in Hres as (_ & _ & _ & Hdd & Habs).
    destruct Hbad; congruence.
  - intros abs Hres.
    apply resolve_inr in Hres as (-> & Hne & Hreal & _ & _).
    assert (Hclean : Forall clean_segment
                       (normalize module_root ++ normalize (split_on 47 p)))
      by (apply Forall_app; split; apply normalize_clean).
    split; [|split; [done|]].
    + unfold is_within. rewrite (normalize_fixed _ Hclean).
      apply andb_true_iff. split.
      * apply bool_decide_eq_true_2. by apply prefix_app_r.
      * apply negb_true_iff, bool_decide_eq_false_2. congruence.
    + exists (normalize (split_on 47 p)).
      split; [|split; [done|apply normalize_clean]].
      intros Hnil. apply Hne. by rewrite Hnil, app_nil_r.
Qed.

(** ** The properties at concrete inputs *)

Example encodeURIComponent_path :
  encodeURIComponent (lit "src/my file.txt") = Some (lit "src%2Fmy%20file.txt").
Proof. reflexivity. Qed.

Example encodeURIComponent_euro_and_pair :
  encodeURIComponent [0x20AC; 0xD83D; 0xDE00]
  = Some (lit "%E2%82%AC%F0%9F%98%80").
Proof. reflexivity. Qed.

Example encodeURIComponent_lone_surrogate :
  encodeURIComponent [0x61; 0xD83D; 0x62] = None.
Proof. reflexivity. Qed.

Example trim_both_ends :
  trim (lit "  fix the header " ++ [0x0A; 0x2003]) = lit "fix the header".
Proof. reflexivity. Qed.

Example readFile_request :
  (run (λ _, Failed (TypeError (lit "Failed to fetch")))
       (readFile (lit "alice") (lit "proj1") (lit "frontend")
                 (lit "src/App.tsx"))).1
  = [plain_get (lit "/connect/alice/proj1/frontend/api/files?path=src%2FApp.tsx")].
Proof. reflexivity. Qed.

Example resolve_below_root :
  resolve id [lit "root"; lit "workspace"; lit "prototype"]
          (lit "src/./index.html")
  = inr [lit "root"; lit "workspace"; lit "prototype"; lit "src";
         lit "index.html"].
Proof. vm_compute. reflexivity. Qed.

Example resolve_inner_dotdot :
  resolve id [lit "root"; lit "workspace"; lit "prototype"] (lit "a/../b")
  = inl PathTraversal.
Proof. vm_compute. reflexivity. Qed.

(** The scenario of the specification: [../../etc/passwd] and
    [/etc/passwd] are rejected, and an accepted path is below the root. *)
Lemma resolve_rejects_traversal_witness :
  let root := [lit "root"; lit "workspace"; lit "prototype"] in
  resolve id root (lit "../../etc/passwd") = inl PathTraversal
  ∧ resolve id root (lit "/etc/passwd") = inl PathTraversal
  ∧ is_within root (root ++ [lit "src"; lit "index.html"]) = true.
Proof.
  cbv zeta. split; [|split].
  - apply (proj1 (resolve_rejects_traversal id
                    [lit "root"; lit "workspace"; lit "prototype"]
                    (lit "../../etc/passwd"))).
    left. vm_compute. reflexivity.
  - apply (proj1 (resolve_rejects_traversal id
                    [lit "root"; lit "workspace"; lit "prototype"]
                    (lit "/etc/passwd"))).
    right. vm_compute. reflexivity.
  - apply (proj2 (resolve_rejects_traversal id
                    [lit "root"; lit "workspace"; lit "prototype"]
                    (lit "src/index.html"))).
    vm_compute. reflexivity.
Defined.

Lemma chat_exchange_appends_reply_witness :
  messages
    (ChatPanel_exchange (lit "") (lit "demo-user") (lit "demo-project")
       frontend agent_replies
       {| randomUUID := lit "id-1"; now := 1000 |}
       {| randomUUID := lit "id-2"; now := 2000 |}
       (lit "Create a button")
       {| isOpen := true; messages := []; isPending := false |})
  = [ {| msg_id := lit "id-1"; msg_role := user;
         msg_content := lit "Create a button"; msg_timestamp := 1000 |};
      {| msg_id := lit "id-2"; msg_role := assistant;
         msg_content := lit "Created src/Button.tsx";
         msg_timestamp := 2000 |} ].
Proof.
  apply (proj1 (chat_exchange_appends_reply
                  (lit "") (lit "demo-user") (lit "demo-project")
                  (lit "Create a button") frontend agent_replies
                  {| randomUUID := lit "id-1"; now := 1000 |}
                  {| randomUUID := lit "id-2"; now := 2000 |}
                  {| isOpen := true; messages := []; isPending := false |}
                  {| resp_message := lit "Created src/Button.tsx";
                     resp_actions :=
                       Some [ {| action_type := file_created;
                                 action_path := lit "src/Button.tsx" |} ] |}
                  eq_refl)).
Defined.

Lemma ChatInput_submit_witness :
  handleSubmit None (lit "  hello  ") = [onSend (lit "hello"); setMessage (lit "")]
  ∧ message_after (handleSubmit None (lit "  hello  ")) (lit "  hello  ")
    = lit ""
  ∧ message_after (handleSubmit (Some true) (lit "  hello  ")) (lit "  hello  ")
    = lit "  hello  ".
Proof.
  split; [reflexivity|]. split.
  - apply (ChatInput_submit None (lit "  hello  ")).
    exists (lit "hello"). vm_compute. apply list_elem_of_here.
  - apply (ChatInput_submit (Some true) (lit "  hello  ")).
    intros [text Hin]. vm_compute in Hin. by apply elem_of_nil in Hin.
Defined.

Lemma module_ports_are_static_witness :
  module_port (lit "tests") = Some 3004
  ∧ module_port (lit "backend") = None
  ∧ proxy_target (lit "frontend") (lit "index.html")
    = Some (lit "http://localhost:3002/index.html").
Proof.
  split; [|split].
  - apply (module_ports_are_static tests []).
  - apply (module_ports_are_static tests []).
    vm_compute. intros Hin.
    repeat (apply elem_of_cons in Hin as [Heq|Hin]; [discriminate Heq|]).
    by apply elem_of_nil in Hin.
  - apply (module_ports_are_static frontend (lit "index.html")).
Defined.

(** * Properties of the rest of the client *)

(** ** The URL helpers and the hook that does not use them *)

(** Property X1.  For every API URL, the file API URL of a module is its
    preview URL followed by [api/files], and both are the API URL followed
    by a path under [/connect/]. *)
Theorem sandboxFilesUrl_under_previewUrl
    (api userId projectId module : jsstring) :
  sandboxFilesUrl api userId projectId module
  = previewUrl api userId projectId module ++ lit "api/files"
  ∧ previewUrl api userId projectId module
    = api ++ lit "/connect/" ++ userId ++ lit "/" ++ projectId ++ lit "/"
      ++ module ++ lit "/".
Proof.
  unfold sandboxFilesUrl, previewUrl. rewrite !apiUrl_app. split; [|done].
  rewrite <- !app_assoc. reflexivity.
Qed.

(** Property X2.  The requests of [useSandbox] do not go through
    [sandboxFilesUrl]: the URL they fetch is the one the helper gives for an
    empty API URL, and it is the helper's URL only when the build-time API
    URL is empty. *)
Theorem useSandbox_urls_are_relative {T}
    (api userId projectId module path content : jsstring)
    (net_list : Request → FetchOutcome (list FileNode))
    (net_write : Request → FetchOutcome T) :
  req_url <$> (run net_list (fetchFileTree userId projectId module)).1
  = [sandboxFilesUrl [] userId projectId module]
  ∧ req_url <$> (run net_write
                   (writeFile userId projectId module path content)).1
    = [sandboxFilesUrl [] userId projectId module]
  ∧ (req_url <$> (run net_list (fetchFileTree userId projectId module)).1
     = [sandboxFilesUrl api userId projectId module] ↔ api = []).
Proof.
  assert (Hlist : req_url <$> (run net_list
                     (fetchFileTree userId projectId module)).1
                  = [sandboxFilesUrl [] userId projectId module]).
  { unfold fetchFileTree, plain_get.
    run_one_fetch net_list r e; [|done].
    unfold json. destruct (res_ok r); [|done]. by destruct (res_json r). }
  split; [exact Hlist|]. split.
  - unfold writeFile.
    run_one_fetch net_write r e; [|done]. by destruct (res_ok r).
  - rewrite Hlist. unfold sandboxFilesUrl. rewrite !apiUrl_app. cbn [app].
    split.
    + intros [= Heq]. destruct (decide (api = [])) as [|Hne]; [done|].
      exfalso. eapply app_ne_self_r; [exact Hne|]. symmetry. exact Heq.
    + intros ->. reflexivity.
Qed.

(** ** [encodeURIComponent] in the file-read request *)

Lemma lor_lt_256 (a b : N) : a < 256 → b < 256 → N.lor a b < 256.
Proof.
  intros Ha Hb. destruct (N.eq_dec (N.lor a b) 0) as [->|Hne]; [lia|].
  change 256 with (2 ^ 8) in *. apply N.log2_lt_pow2; [lia|].
  rewrite N.log2_lor.
  assert (Hlog : ∀ x, x < 2 ^ 8 → N.log2 x < 8).
  { intros x Hx. destruct (N.eq_dec x 0) as [->|Hx0]; [done|].
    apply N.log2_lt_pow2; [lia|done]. }
  apply N.max_lub_lt; by apply Hlog.
Qed.

Lemma land_63_lt (x : N) : N.land x 0x3F < 64.
Proof.
  change 0x3F with (N.ones 6). rewrite N.land_ones. by apply N.mod_lt.
Qed.

Lemma continuation_octet_lt (x : N) : N.lor 0x80 (N.land x 0x3F) < 256.
Proof. apply lor_lt_256; [done|]. pose proof (land_63_lt x). lia. Qed.

Lemma shiftr_lt (x k bound : N) : x < 2 ^ k * bound → N.shiftr x k < bound.
Proof.
  intros Hx. rewrite N.shiftr_div_pow2. by apply N.Div0.div_lt_upper_bound.
Qed.

(** The UTF-8 encoding of a code point consists of octets. *)
Lemma utf8_octets (cp : N) : cp < 0x110000 → Forall (λ b, b < 256) (utf8 cp).
Proof.
  intros Hcp. unfold utf8.
  destruct (cp <? 0x80) eqn:H1; [apply N.ltb_lt in H1|apply N.ltb_ge in H1].
  { repeat constructor. lia. }
  destruct (cp <? 0x800) eqn:H2; [apply N.ltb_lt in H2|apply N.ltb_ge in H2].
  { repeat constructor; [|apply continuation_octet_lt].
    apply lor_lt_256; [done|].
    pose proof (shiftr_lt cp 6 32). lia. }
  destruct (cp <? 0x10000) eqn:H3; [apply N.ltb_lt in H3|apply N.ltb_ge in H3].
  { repeat constructor; try apply continuation_octet_lt.
    apply lor_lt_256; [done|].
    pose proof (shiftr_lt cp 12 16). lia. }
  repeat constructor; try apply continuation_octet_lt.
  apply lor_lt_256; [done|].
  pose proof (shiftr_lt cp 18 8). lia.
Qed.

Lemma hex_digit_unreserved (d : N) :
  d < 16 → uri_unreserved (hex_digit d) = true.
Proof.
  intros Hd. unfold hex_digit, uri_unreserved.
  destruct (d <? 10) eqn:H10; [apply N.ltb_lt in H10|apply N.ltb_ge in H10].
  - assert (H1 : (48 <=? 48 + d) = true) by (apply N.leb_le; lia).
    assert (H2 : (48 + d <=? 57) = true) by (apply N.leb_le; lia).
    rewrite H1, H2. cbn [andb]. by rewrite orb_true_r.
  - assert (H1 : (65 <=? 55 + d) = true) by (apply N.leb_le; lia).
    assert (H2 : (55 + d <=? 90) = true) by (apply N.leb_le; lia).
    by rewrite H1, H2.
Qed.

(** An escaped octet is a percent sign and two characters that need no
    escape. *)
Lemma percent_octet_safe (b : N) :
  b < 256 →
  Forall (λ c, uri_unreserved c = true ∨ c = 37) (percent_octet b).
Proof.
  intros Hb. unfold percent_octet.
  constructor; [by right|]. constructor; [|constructor; [|constructor]].
  - left. apply hex_digit_unreserved.
    pose proof (shiftr_lt b 4 16). lia.
  - left. apply hex_digit_unreserved.
    change 15 with (N.ones 4). rewrite N.land_ones. by apply N.mod_lt.
Qed.

Lemma percent_utf8_safe (cp : N) :
  cp < 0x110000 →
  Forall (λ c, uri_unreserved c = true ∨ c = 37) (utf8 cp ≫= percent_octet).
Proof.
  intros Hcp. apply Forall_bind.
  eapply Forall_impl; [by apply utf8_octets|].
  intros b Hb. by apply percent_octet_safe.
Qed.

(** What [encodeURIComponent] gives consists of characters that need no
    escape and of percent signs, when its argument is a string (its code
    units are below 2^16). *)
Lemma encodeURIComponent_safe_aux (n : nat) (s t : jsstring) :
  (length s ≤ n)%nat →
  Forall (λ c, c < 0x10000) s →
  encodeURIComponent s = Some t →
  Forall (λ c, uri_unreserved c = true ∨ c = 37) t.
Proof.
  revert s t. induction n as [|n IH]; intros s t Hlen Hwf Henc.
  { destruct s; [|cbn in Hlen; lia]. injection Henc as <-. constructor. }
  destruct s as [|c rest]; [injection Henc as <-; constructor|].
  cbn [length] in Hlen. apply Forall_cons in Hwf as [Hc Hrest].
  cbn [encodeURIComponent] in Henc.
  destruct (uri_unreserved c) eqn:Hun.
  { destruct (encodeURIComponent rest) as [t'|] eqn:Hr; [|done].
    injection Henc as <-. constructor; [by left|].
    apply (IH rest); [lia|done|done]. }
  destruct (is_low_surrogate c) eqn:Hlow; [done|].
  destruct (is_high_surrogate c) eqn:Hhigh.
  - destruct rest as [|d rest']; [done|].
    destruct (is_low_surrogate d) eqn:Hd; [|done].
    destruct (encodeURIComponent rest') as [t'|] eqn:Hr; [|done].
    injection Henc as <-. apply Forall_app. split.
    + apply percent_utf8_safe.
      unfold is_high_surrogate, is_low_surrogate in Hhigh, Hd.
      apply andb_true_iff in Hhigh as [?%N.leb_le ?%N.leb_le].
      apply andb_true_iff in Hd as [?%N.leb_le ?%N.leb_le]. lia.
    + apply Forall_cons in Hrest as [_ Hrest'].
      cbn [length] in Hlen. apply (IH rest'); [lia|done|done].
  - destruct (encodeURIComponent rest) as [t'|] eqn:Hr; [|done].
    injection Henc as <-. apply Forall_app. split.
    + apply percent_utf8_safe. lia.
    + apply (IH rest); [lia|done|done].
Qed.

(** The requests of [readFile], by whether the path can be encoded. *)
Lemma readFile_requests (userId projectId module path : jsstring)
    (net : Request → FetchOutcome SandboxFile) :
  (run net (readFile userId projectId module path)).1
  = match encodeURIComponent path with
    | Some encoded =>
        [plain_get (lit "/connect/" ++ userId ++ lit "/" ++ projectId
                    ++ lit "/" ++ module ++ lit "/api/files?path="
                    ++ encoded)]
    | None => []
    end.
Proof.
  unfold readFile. destruct (encodeURIComponent path) as [encoded|]; [|done].
  unfold plain_get. run_one_fetch net r e; [|done].
  unfold json. destruct (res_ok r); [|done]. by destruct (res_json r).
Qed.

(** Property X3.  Whatever the path (a string: code units below 2^16), the
    URL that [readFile] requests is the fixed prefix up to [?path=] followed
    by characters that need no escape and percent signs only: the path
    cannot add a second query parameter, a fragment or a path segment to the
    request. *)
Theorem readFile_query_is_escaped
    (userId projectId module path : jsstring)
    (net : Request → FetchOutcome SandboxFile) (req : Request) :
  Forall (λ c, c < 0x10000) path →
  req ∈ (run net (readFile userId projectId module path)).1 →
  ∃ encoded,
    req_url req
    = lit "/connect/" ++ userId ++ lit "/" ++ projectId ++ lit "/" ++ module
      ++ lit "/api/files?path=" ++ encoded
    ∧ Forall (λ c, uri_unreserved c = true ∨ c = 37) encoded
    ∧ ∀ c, c ∈ [38; 35; 47; 63; 61; 32; 43] → c ∉ encoded.
Proof.
  intros Hwf Hreq. rewrite readFile_requests in Hreq.
  destruct (encodeURIComponent path) as [encoded|] eqn:Henc;
    [|by apply elem_of_nil in Hreq].
  apply list_elem_of_singleton in Hreq as ->. exists encoded.
  pose proof (encodeURIComponent_safe_aux _ path encoded (le_n _) Hwf Henc)
    as Hsafe.
  split; [done|]. split; [done|].
  intros c Hc Hin.
  rewrite Forall_forall in Hsafe. destruct (Hsafe c Hin) as [Hun| ->].
  - repeat (apply elem_of_cons in Hc as [->|Hc]; [discriminate Hun|]).
    by apply elem_of_nil in Hc.
  - repeat (apply elem_of_cons in Hc as [Hc|Hc]; [discriminate Hc|]).
    by apply elem_of_nil in Hc.
Qed.

Lemma encodeURIComponent_without_surrogates (s : jsstring) :
  Forall (λ c, is_high_surrogate c = false ∧ is_low_surrogate c = false) s →
  is_Some (encodeURIComponent s).
Proof.
  induction 1 as [|c rest [Hhigh Hlow] _ [t Ht]]; [by eexists|].
  cbn [encodeURIComponent]. rewrite Hhigh, Hlow, Ht.
  destruct (uri_unreserved c); by eexists.
Qed.

(** Property X4.  A path with no surrogate code unit can always be
    encoded, so [readFile] issues exactly one request for it: the paths for
    which it issues none (and fails with [URIError] before any request) all
    have a surrogate. *)
Theorem readFile_requests_without_surrogates
    (userId projectId module path : jsstring)
    (net : Request → FetchOutcome SandboxFile) :
  Forall (λ c, is_high_surrogate c = false ∧ is_low_surrogate c = false) path →
  is_Some (encodeURIComponent path)
  ∧ length (run net (readFile userId projectId module path)).1 = 1%nat.
Proof.
  intros Hpath.
  destruct (encodeURIComponent_without_surrogates path Hpath) as [t Ht].
  split; [by exists t|]. by rewrite readFile_requests, Ht.
Qed.

Lemma encodeURIComponent_unreserved (s : jsstring) :
  Forall (λ c, uri_unreserved c = true) s → encodeURIComponent s = Some s.
Proof.
  induction 1 as [|c rest Hc _ IH]; [done|].
  cbn [encodeURIComponent]. by rewrite Hc, IH.
Qed.

(** Property X5.  A path made only of letters, digits and the marks
    [- _ . ! ~ * ' ( )] is put in the URL as it is. *)
Theorem readFile_plain_path_unchanged
    (userId projectId module path : jsstring)
    (net : Request → FetchOutcome SandboxFile) :
  Forall (λ c, uri_unreserved c = true) path →
  (run net (readFile userId projectId module path)).1
  = [plain_get (lit "/connect/" ++ userId ++ lit "/" ++ projectId ++ lit "/"
                ++ module ++ lit "/api/files?path=" ++ path)].
Proof.
  intros Hpath.
  by rewrite readFile_requests, (encodeURIComponent_unreserved path Hpath).
Qed.

(** ** What the chat input sends *)

Lemma trim_start_split (s : jsstring) :
  ∃ k, s = k ++ trim_start s ∧ Forall (λ c, is_trim_space c = true) k.
Proof.
  induction s as [|c rest (k & Heq & Hk)]; [by exists []|].
  cbn [trim_start]. destruct (is_trim_space c) eqn:Hc.
  - exists (c :: k). split; [by rewrite Heq at 1|by constructor].
  - by exists [].
Qed.

Lemma trim_start_head (s : jsstring) (c : N) :
  head (trim_start s) = Some c → is_trim_space c = false.
Proof.
  induction s as [|d rest IH]; [done|]. cbn [trim_start].
  destruct (is_trim_space d) eqn:Hd; [done|]. by intros [= <-].
Qed.

Lemma trim_start_fixed (x : jsstring) :
  (∀ c, head x = Some c → is_trim_space c = false) → trim_start x = x.
Proof.
  destruct x as [|c rest]; [done|]. intros Hhead. cbn [trim_start].
  by rewrite (Hhead c eq_refl).
Qed.

Lemma trim_start_last (s : jsstring) (c : N) :
  last (trim_start s) = Some c → last s = Some c.
Proof.
  destruct (trim_start_split s) as (k & Heq & _). intros Hlast.
  rewrite Heq, last_app. by rewrite Hlast.
Qed.

Lemma trim_start_all_space (s : jsstring) :
  Forall (λ c, is_trim_space c = true) s → trim_start s = [].
Proof. induction 1 as [|c rest Hc _ IH]; [done|]. cbn. by rewrite Hc. Qed.

(** A trimmed string neither starts nor ends with white space. *)
Lemma trim_head (s : jsstring) (c : N) :
  head (trim s) = Some c → is_trim_space c = false.
Proof.
  unfold trim. rewrite head_reverse. intros Hlast.
  apply trim_start_last in Hlast. rewrite last_reverse in Hlast.
  by apply trim_start_head in Hlast.
Qed.

Lemma trim_last (s : jsstring) (c : N) :
  last (trim s) = Some c → is_trim_space c = false.
Proof. unfold trim. rewrite last_reverse. apply trim_start_head. Qed.

Lemma trim_fixed (x : jsstring) :
  (∀ c, head x = Some c → is_trim_space c = false) →
  (∀ c, last x = Some c → is_trim_space c = false) →
  trim x = x.
Proof.
  intros Hhead Hlast. unfold trim. rewrite (trim_start_fixed x Hhead).
  rewrite trim_start_fixed; [apply reverse_involutive|].
  intros c. rewrite head_reverse. apply Hlast.
Qed.

Lemma trim_all_space (s : jsstring) :
  Forall (λ c, is_trim_space c = true) s → trim s = [].
Proof. intros Hs. unfold trim. by rewrite (trim_start_all_space s Hs). Qed.

(** Property X6.  The text [handleSubmit] gives to [onSend] is never
    empty, never starts or ends with white space, and is unchanged by
    another [trim]. *)
Theorem ChatInput_sends_trimmed_text
    (isLoading : option bool) (message text : jsstring) :
  onSend text ∈ handleSubmit isLoading message →
  text ≠ []
  ∧ (∀ c, head text = Some c → is_trim_space c = false)
  ∧ (∀ c, last text = Some c → is_trim_space c = false)
  ∧ trim text = text.
Proof.
  intros Hin.
  destruct (handleSubmit_cases isLoading message)
    as [(Hne & _ & Heq)|(_ & Heq)]; rewrite Heq in Hin;
    [|by apply elem_of_nil in Hin].
  apply elem_of_cons in Hin as [[= ->]|Hin];
    [|apply list_elem_of_singleton in Hin; discriminate Hin].
  split; [done|]. split; [apply trim_head|]. split; [apply trim_last|].
  apply trim_fixed; [apply trim_head|apply trim_last].
Qed.

(** Property X7.  A submit right after a submit sends nothing: once the
    effects of [handleSubmit] are applied to the input, a second
    [handleSubmit] has no effect and a second Enter only calls
    [preventDefault]. *)
Theorem ChatInput_no_double_send (isLoading : option bool) (message : jsstring) :
  let message' := message_after (handleSubmit isLoading message) message in
  handleSubmit isLoading message' = []
  ∧ handleKeyDown isLoading message'
      {| key := lit "Enter"; shiftKey := false |} = [preventDefault].
Proof.
  cbv zeta.
  assert (Hsecond : handleSubmit isLoading
            (message_after (handleSubmit isLoading message) message) = []).
  { destruct (handleSubmit_cases isLoading message)
      as [(_ & _ & Heq)|(Hno & Heq)]; rewrite Heq; cbn [message_after foldl].
    - reflexivity.
    - destruct (handleSubmit_cases isLoading message)
        as [(Hne & Hidle & _)|(_ & Heq')]; [|done].
      exfalso. by apply Hno. }
  split; [done|]. unfold handleKeyDown. cbn [key shiftKey].
  rewrite (bool_decide_eq_true_2 (lit "Enter" = lit "Enter") eq_refl).
  cbn [andb negb]. by rewrite Hsecond.
Qed.

(** Property X8.  An input of white space only (or an empty one) is never
    sent: [handleSubmit] does nothing and the send button is disabled,
    whether a request is pending or not. *)
Theorem ChatInput_blank_input_not_sent
    (isLoading : option bool) (message : jsstring) :
  Forall (λ c, is_trim_space c = true) message →
  handleSubmit isLoading message = []
  ∧ send_button_disabled isLoading message = true
  ∧ ∀ e, handleKeyDown isLoading message e = [preventDefault]
         ∨ handleKeyDown isLoading message e = [].
Proof.
  intros Hblank. pose proof (trim_all_space message Hblank) as Htrim.
  assert (Hsub : handleSubmit isLoading message = [])
    by (unfold handleSubmit; by rewrite Htrim).
  split; [done|]. split.
  - unfold send_button_disabled. by rewrite Htrim.
  - intros e. unfold handleKeyDown. rewrite Hsub.
    destruct (_ && _); [by left|by right].
Qed.

(** ** Failures of the agent request *)

(** Property X9.  When the agent endpoint answers with a status that is
    not ok, [sendAgentMessage] rejects with an [Error] whose message is the
    text of the response, or ['Failed to send message'] when that text is
    empty; the message is never empty. *)
Theorem sendAgentMessage_error_message
    (api : jsstring) (request : JsValue)
    (net : Request → FetchOutcome AgentResponse) (r : Response AgentResponse) :
  net {| req_url := api ++ lit "/agent/chat"; req_method := POST;
         req_headers := [(lit "Content-Type", lit "application/json")];
         req_body := JSON_stringify request |} = Fulfilled r →
  res_ok r = false →
  ∃ message,
    (run net (sendAgentMessage api request)).2 = inl (Error message)
    ∧ message ≠ []
    ∧ (res_text r ≠ [] → message = res_text r)
    ∧ (res_text r = [] → message = lit "Failed to send message").
Proof.
  intros Hnet Hok. unfold sendAgentMessage, agentChatUrl, json_headers.
  rewrite apiUrl_app, run_bind_await, Hnet, Hok. cbn [negb run fst snd].
  exists (or_else (res_text r) (lit "Failed to send message")).
  split; [done|]. unfold or_else.
  destruct (res_text r) as [|c text]; cbn [truthy]; by repeat split.
Qed.

(** Property X10.  When the request of a send fails, for whatever reason,
    the conversation is the previous one followed by the user's message
    alone: no assistant message and no error message is added; the mutation
    is no longer pending and the panel is as open as it was. *)
Theorem chat_exchange_failure_state
    (api userId projectId content : jsstring) (activeModule : ModuleType)
    (net : Request → FetchOutcome AgentResponse)
    (env_send env_settle : Fresh) (st : ChatPanelState) (e : JsError) :
  (run net (ChatPanel_handleSend api userId projectId activeModule
              env_send content st).2).2 = inl e →
  ChatPanel_exchange api userId projectId activeModule net
    env_send env_settle content st
  = {| isOpen := isOpen st;
       messages :=
         messages st
         ++ [ {| msg_id := randomUUID env_send; msg_role := user;
                 msg_content := content; msg_timestamp := now env_send |} ];
       isPending := false |}.
Proof.
  intros Herr. unfold ChatPanel_exchange. rewrite Herr. reflexivity.
Qed.

(** ** The conversation of the chat panel *)

Lemma replies_follow_users_snoc (after_user : bool) (l : list Message)
    (m : Message) :
  replies_follow_users after_user (l ++ [m])
  = replies_follow_users after_user l
    && match msg_role m with
       | user => true
       | assistant =>
           match last l with
           | Some x => bool_decide (msg_role x = user)
           | None => after_user
           end
       end.
Proof.
  revert after_user. induction l as [|x l IH]; intros after_user.
  - cbn. destruct (msg_role m); [done|]. by rewrite andb_true_r.
  - cbn [app replies_follow_users]. rewrite last_cons.
    destruct (msg_role x) eqn:Hx; rewrite IH.
    + destruct (msg_role m); [done|]. destruct (last l); [done|].
      by rewrite Hx.
    + rewrite andb_assoc. destruct (msg_role m); [done|].
      destruct (last l); [done|]. by rewrite Hx.
Qed.

Lemma ChatPanel_step_conversation_ok
    (api userId projectId : jsstring) (activeModule : ModuleType)
    (e : ChatEvent) (st : ChatPanelState) :
  conversation_ok st →
  conversation_ok (ChatPanel_step api userId projectId activeModule e st).
Proof.
  intros Hok. pose proof Hok as (Hreplies & Hpending & Husers).
  destruct e as [| |env message|env outcome]; cbn [ChatPanel_step].
  - exact Hok.
  - exact Hok.
  - destruct (isOpen st); [|exact Hok].
    destruct (handleSubmit_cases (Some (isPending st)) message)
      as [(Hne & Hidle & ->)|(_ & ->)]; [|exact Hok].
    cbn [ChatPanel_after_input foldl ChatPanel_handleSend fst].
    split; [|split].
    + cbn [messages]. rewrite replies_follow_users_snoc.
      by rewrite Hreplies.
    + intros _. cbn [messages]. unfold last_is_user. by rewrite last_snoc.
    + cbn [messages]. apply Forall_app. split; [done|].
      constructor; [|constructor]. intros _. cbn [msg_content].
      split; [exact Hne|]. apply trim_fixed; [apply trim_head|apply trim_last].
  - destruct (isPending st) eqn:Hp; [|exact Hok].
    specialize (Hpending eq_refl).
    destruct outcome as [err|response]; unfold conversation_ok;
      cbn [ChatPanel_settle ChatPanel_onSuccess messages isPending].
    + by repeat split.
    + split; [|split; [done|]].
      * rewrite replies_follow_users_snoc, Hreplies. cbn [msg_role andb].
        unfold last_is_user in Hpending. by destruct (last (messages st)).
      * apply Forall_app. split; [done|]. by constructor.
Qed.

Lemma ChatPanel_run_conversation_ok
    (api userId projectId : jsstring) (activeModule : ModuleType)
    (events : list ChatEvent) (st : ChatPanelState) :
  conversation_ok st →
  conversation_ok (ChatPanel_run api userId projectId activeModule events st).
Proof.
  revert st. induction events as [|e events IH]; intros st Hst; [done|].
  cbn [ChatPanel_run foldl]. apply IH.
  by apply ChatPanel_step_conversation_ok.
Qed.

Lemma ChatPanel_initial_conversation_ok : conversation_ok ChatPanel_initial.
Proof. by repeat split. Qed.

(** Property X11.  Whatever happens to the chat panel (opening, closing,
    submits of any input, settlements of the pending request), starting
    from its initial state: every assistant message directly follows a user
    message, the last message is the user's while a request is pending, and
    every user message is not empty and trimmed. *)
Theorem chat_conversation_invariant
    (api userId projectId : jsstring) (activeModule : ModuleType)
    (events : list ChatEvent) :
  let st := ChatPanel_run api userId projectId activeModule events
              ChatPanel_initial in
  replies_follow_users false (messages st) = true
  ∧ (isPending st = true → last_is_user (messages st) = true)
  ∧ Forall (λ m, msg_role m = user →
                 msg_content m ≠ [] ∧ trim (msg_content m) = msg_content m)
           (messages st).
Proof.
  cbv zeta.
  exact (ChatPanel_run_conversation_ok api userId projectId activeModule
           events ChatPanel_initial ChatPanel_initial_conversation_ok).
Qed.

Lemma ChatPanel_step_messages_prefix
    (api userId projectId : jsstring) (activeModule : ModuleType)
    (e : ChatEvent) (st : ChatPanelState) :
  messages st
    `prefix_of` messages (ChatPanel_step api userId projectId activeModule e st).
Proof.
  destruct e as [| |env message|env outcome]; cbn [ChatPanel_step messages].
  - done.
  - done.
  - destruct (isOpen st); [|done].
    destruct (handleSubmit_cases (Some (isPending st)) message)
      as [(_ & _ & ->)|(_ & ->)]; [|done].
    cbn [ChatPanel_after_input foldl ChatPanel_handleSend fst messages].
    by apply prefix_app_r.
  - destruct (isPending st); [|done].
    destruct outcome as [err|response];
      cbn [ChatPanel_settle ChatPanel_onSuccess messages]; [done|].
    by apply prefix_app_r.
Qed.

(** Property X12.  No event of the chat panel removes, reorders or edits a
    message: from any state, the messages before a sequence of events are a
    prefix of the messages after it. *)
Theorem chat_messages_only_grow
    (api userId projectId : jsstring) (activeModule : ModuleType)
    (events : list ChatEvent) (st : ChatPanelState) :
  messages st
    `prefix_of` messages (ChatPanel_run api userId projectId activeModule
                            events st).
Proof.
  revert st. induction events as [|e events IH]; intros st; [done|].
  cbn [ChatPanel_run foldl]. etrans; [|apply IH].
  apply ChatPanel_step_messages_prefix.
Qed.

(** Property X13.  While a request is pending, a submit of the input
    changes nothing, whatever the input holds: no message is appended and no
    second request is started; the textarea and the send button are
    disabled. *)
Theorem chat_submit_while_pending
    (api userId projectId message : jsstring) (activeModule : ModuleType)
    (env : Fresh) (st : ChatPanelState) :
  isPending st = true →
  ChatPanel_step api userId projectId activeModule (ev_submit env message) st
  = st
  ∧ handleSubmit (Some (isPending st)) message = []
  ∧ textarea_disabled (Some (isPending st)) = true
  ∧ send_button_disabled (Some (isPending st)) message = true.
Proof.
  intros Hp. rewrite Hp.
  assert (Hsub : handleSubmit (Some true) message = []).
  { unfold handleSubmit. cbn [truthy_opt default negb]. by rewrite andb_false_r. }
  split; [|split; [done|split; [done|]]].
  - cbn [ChatPanel_step]. rewrite Hp, Hsub. by destruct (isOpen st).
  - unfold send_button_disabled. by rewrite orb_true_r.
Qed.

(** Property X14.  In every state the panel reaches from its initial
    state, the open panel shows one bubble per message, in order and with
    the text of the message; the typing indicator is shown exactly while a
    request is pending, and then the last bubble is the user's; the
    placeholder is shown only with no bubble and no typing indicator. *)
Theorem chat_view_invariant
    (api userId projectId : jsstring) (activeModule : ModuleType)
    (events : list ChatEvent) (list_view : MessageListView)
    (input_isLoading : option bool) :
  let st := ChatPanel_run api userId projectId activeModule events
              ChatPanel_initial in
  ChatPanel_view st = PanelOpen list_view input_isLoading →
  bubble_text <$> bubbles list_view = msg_content <$> messages st
  ∧ bubble_key <$> bubbles list_view = msg_id <$> messages st
  ∧ typing_indicator list_view = isPending st
  ∧ input_isLoading = Some (isPending st)
  ∧ (typing_indicator list_view = true →
     bubble_right <$> last (bubbles list_view) = Some true)
  ∧ (placeholder list_view = true →
     bubbles list_view = [] ∧ typing_indicator list_view = false).
Proof.
  cbv zeta. set (st := ChatPanel_run _ _ _ _ _ _).
  assert (Hok : conversation_ok st)
    by (apply ChatPanel_run_conversation_ok,
          ChatPanel_initial_conversation_ok).
  destruct Hok as (_ & Hpending & _).
  unfold ChatPanel_view. destruct (isOpen st); [|done].
  intros [= <- <-]. cbn [MessageList bubbles typing_indicator placeholder
                         truthy_opt default].
  split; [by rewrite <- list_fmap_compose|].
  split; [by rewrite <- list_fmap_compose|].
  split; [done|]. split; [done|]. split.
  - intros Hp. specialize (Hpending Hp). unfold last_is_user in Hpending.
    rewrite fmap_last. destruct (last (messages st)) as [m|]; [|done].
    cbn. by rewrite Hpending.
  - intros [Hempty Hidle]%andb_true_iff.
    apply bool_decide_eq_true_1 in Hempty.
    apply negb_true_iff in Hidle.
    split; [|done]. by destruct (messages st).
Qed.

(** ** The navigation, the preview and the chat of one shell *)

Lemma useAgent_mutationFn_requests
    (api userId projectId message : jsstring) (activeModule : ModuleType)
    (chatHistory : option (list Message))
    (net : Request → FetchOutcome AgentResponse) :
  ∃ body,
    (run net (useAgent_mutationFn api userId projectId activeModule
                chatHistory message)).1
    = [{| req_url := api ++ lit "/agent/chat"; req_method := POST;
          req_headers := json_headers; req_body := body |}]
    ∧ body
      = JSON_stringify
          (VObject
             [(lit "message", VString message);
              (lit "chat_history",
               match chatHistory with
               | Some h =>
                   VArray ((λ m, VObject
                              [(lit "role", VString (Role_str (msg_role m)));
                               (lit "content", VString (msg_content m))])
                             <$> h)
               | None => VUndefined
               end);
              (lit "context",
               VObject [(lit "userId", VString userId);
                        (lit "projectId", VString projectId);
                        (lit "activeModule",
                         VString (ModuleType_str activeModule))])]).
Proof.
  eexists. split; [|reflexivity].
  unfold useAgent_mutationFn, sendAgentMessage, agentChatUrl.
  rewrite apiUrl_app. run_one_fetch net r e; [|done].
  unfold json. destruct (res_ok r); [|done]. by destruct (res_json r).
Qed.

(** Property X15.  After a click on a navigation button, the three parts
    of the shell agree on the module: the one pressed button is the clicked
    one, the preview shows the label and the [/connect] URL of its module,
    and a message sent from the chat carries that module, with the user and
    project of the preview URL, in its [context]. *)
Theorem App_click_is_consistent
    (api content : jsstring) (m : ModuleType) (b : NavButton)
    (files : ListModuleState) (preview : PreviewPaneState)
    (env : Fresh) (st : ChatPanelState)
    (net : Request → FetchOutcome AgentResponse) :
  b ∈ shell_sidebar (App api m files preview) →
  let shell := App api (on_click b) files preview in
  List.filter aria_pressed (shell_sidebar shell)
  = [ {| aria_label := aria_label b; aria_pressed := true;
         on_click := on_click b |} ]
  ∧ header_label (shell_preview shell) = MODULE_LABELS (on_click b)
  ∧ iframe_src (shell_preview shell)
    = api ++ lit "/connect/demo-user/demo-project/"
      ++ ModuleType_str (on_click b) ++ lit "/"
  ∧ req_body <$>
      (run net (AppShell_chat_send api (on_click b) App_userId App_projectId
                  env content st).2).1
    = [Some (JObj [(lit "message", JStr content);
                   (lit "context",
                    JObj [(lit "userId", JStr (lit "demo-user"));
                          (lit "projectId", JStr (lit "demo-project"));
                          (lit "activeModule",
                           JStr (ModuleType_str (on_click b)))])])].
Proof.
  intros Hb. cbv zeta.
  cbn [App AppShell shell_sidebar shell_preview] in *.
  unfold IconSidebar in Hb.
  apply list_elem_of_fmap_1 in Hb as (item & -> & Hitem).
  cbn [on_click aria_label].
  split; [|split; [reflexivity|split]].
  - unfold NAV_ITEMS in Hitem.
    repeat (apply elem_of_cons in Hitem as [->|Hitem]; [reflexivity|]).
    by apply elem_of_nil in Hitem.
  - cbn [PreviewPane iframe_src]. unfold previewUrl. rewrite apiUrl_app.
    f_equal.
  - unfold AppShell_chat_send, ChatPanel_handleSend. cbn [snd].
    destruct (useAgent_mutationFn_requests api App_userId App_projectId
                content (nav_id item) None net) as (body & -> & ->).
    reflexivity.
Qed.

(** ** The states of the preview pane *)

Lemma js_succ_below (n : N) : n < 2 ^ 53 → js_succ n = n + 1.
Proof. intros Hn. unfold js_succ. by rewrite (proj2 (N.ltb_lt _ _) Hn). Qed.

(** Property X16.  A click on refresh (or on Retry) reloads the preview:
    the iframe gets the next key, so it is mounted anew, with the same
    [src]; the loading overlay is shown and the error overlay is not,
    whatever the state was.  (The counter is below 2^53.) *)
Theorem PreviewPane_refresh_reloads
    (api userId projectId : jsstring) (m : ModuleType) (st : PreviewPaneState) :
  refreshKey st < 2 ^ 53 →
  let before := PreviewPane api m userId projectId st in
  let s' := PreviewPane_step pv_refresh (m, st) in
  let after := PreviewPane api s'.1 userId projectId s'.2 in
  s'.1 = m
  ∧ iframe_key after = iframe_key before + 1
  ∧ iframe_src after = iframe_src before
  ∧ loading_overlay after = true
  ∧ error_overlay after = false.
Proof.
  intros Hkey. cbv zeta.
  unfold PreviewPane_step, PreviewPane_commit, handleRefresh.
  cbn [fst snd refreshKey]. rewrite (js_succ_below _ Hkey).
  rewrite bool_decide_eq_false_2 by (intros [= Heq]; lia).
  cbn [PreviewPane PreviewPane_effect refreshKey pp_isLoading hasError
       iframe_key iframe_src loading_overlay error_overlay].
  by repeat split.
Qed.



(** Property X18.  A change of the active module resets the pane: the
    loading overlay is shown, the error overlay is not, and the iframe
    shows the URL of the new module under the same key; a render with the
    same module leaves the state as it is. *)
Theorem PreviewPane_module_change_resets
    (api userId projectId : jsstring) (m m' : ModuleType)
    (st : PreviewPaneState) :
  let s' := PreviewPane_step (pv_module m') (m, st) in
  let after := PreviewPane api s'.1 userId projectId s'.2 in
  s'.1 = m'
  ∧ iframe_key after = refreshKey st
  ∧ iframe_src after
    = previewUrl api userId projectId (ModuleType_str m')
  ∧ (m' ≠ m → loading_overlay after = true ∧ error_overlay after = false)
  ∧ (m' = m → s'.2 = st).
Proof.
  cbv zeta. unfold PreviewPane_step, PreviewPane_commit. cbn [fst snd].
  case_bool_decide as Hdeps.
  - injection Hdeps as ->. split; [done|]. split; [done|]. split; [done|].
    split; [done|]. done.
  - split; [done|]. split; [done|]. split; [done|]. split; [done|].
    intros ->. done.
Qed.

Lemma PreviewPane_run_snoc (events : list PreviewEvent) (e : PreviewEvent)
    (s : ModuleType * PreviewPaneState) :
  PreviewPane_run (events ++ [e]) s
  = PreviewPane_step e (PreviewPane_run events s).
Proof. unfold PreviewPane_run. by rewrite foldl_snoc. Qed.

(** Property X19.  From the mount of the pane, after any events, the key
    of the iframe is the number of clicks on refresh (below 2^53), the
    active module is the last one given (the first if none was), and the
    loading and the error overlay are never both shown. *)
Theorem PreviewPane_key_counts_refreshes
    (api userId projectId : jsstring) (m : ModuleType)
    (events : list PreviewEvent) :
  N.of_nat (length (List.filter is_refresh events)) < 2 ^ 53 →
  let s := PreviewPane_run events (m, PreviewPane_mount m) in
  let view := PreviewPane api s.1 userId projectId s.2 in
  iframe_key view = N.of_nat (length (List.filter is_refresh events))
  ∧ s.1 = default m (last (omap (λ e, match e with
                                       | pv_module m' => Some m'
                                       | _ => None
                                       end) events))
  ∧ loading_overlay view && error_overlay view = false.
Proof.
  cbv zeta. intros Hcount.
  split; [|split].
  - cbn [PreviewPane iframe_key]. revert Hcount.
    induction events as [|e events IH] using rev_ind; intros Hcount; [done|].
    rewrite PreviewPane_run_snoc. rewrite List.filter_app, length_app in Hcount |- *.
    destruct (PreviewPane_run events (m, PreviewPane_mount m)) as [m0 st0] eqn:Hrun.
    cbn [snd] in IH.
    assert (Hkeep : ∀ st1, refreshKey st1 = refreshKey st0 → ∀ m1,
              refreshKey (PreviewPane_commit (Some (m0, refreshKey st0)) m1 st1)
              = refreshKey st0).
    { intros st1 Hst1 m1. unfold PreviewPane_commit.
      by destruct (bool_decide _). }
    destruct e; cbn [List.filter is_refresh length] in *;
      unfold PreviewPane_step; cbn [fst snd].
    + unfold PreviewPane_commit. destruct (bool_decide _);
        cbn [PreviewPane_effect handleRefresh refreshKey];
        rewrite js_succ_below by lia; lia.
    + rewrite Hkeep by done. lia.
    + rewrite Hkeep by done. lia.
    + rewrite Hkeep by done. lia.
  - clear Hcount.
    induction events as [|e events IH] using rev_ind; [done|].
    rewrite PreviewPane_run_snoc, omap_app.
    destruct (PreviewPane_run events (m, PreviewPane_mount m)) as [m0 st0].
    cbn [fst] in IH.
    destruct e; cbn [omap list_omap]; unfold PreviewPane_step; cbn [fst snd];
      rewrite ?app_nil_r; try done.
    by rewrite last_snoc.
  - cbn [PreviewPane loading_overlay error_overlay].
    destruct (pp_isLoading _), (hasError _); done.
Qed.

(** ** The rows of any file tree *)

Section FileNode_induction.

Variable P : FileNode → Prop.
Hypothesis P_leaf : ∀ name path type, P (mkFileNode name path type None).
Hypothesis P_children :
  ∀ name path type cs, Forall P cs → P (mkFileNode name path type (Some cs)).

(** Induction on a tree with the property at hand for all the children. *)
Fixpoint FileNode_tree_ind (node : FileNode) : P node :=
  match node with
  | mkFileNode name path type None => P_leaf name path type
  | mkFileNode name path type (Some cs) =>
      P_children name path type cs
        ((fix children (l : list FileNode) : Forall P l :=
            match l with
            | [] => List.Forall_nil P
            | c :: l' =>
                List.Forall_cons P c l' (FileNode_tree_ind c) (children l')
            end) cs)
  end.

End FileNode_induction.

Lemma tree_nodes_child (name path : jsstring) (type : NodeType)
    (cs : list FileNode) (c n : FileNode) :
  c ∈ cs → n ∈ tree_nodes c →
  n ∈ tree_nodes (mkFileNode name path type (Some cs)).
Proof.
  intros Hc Hn. cbn [tree_nodes]. apply elem_of_cons. right.
  apply list_elem_of_bind. by exists c.
Qed.


(** Property X20.  For any tree, any open states and any depth, the rows
    of [FileTreeItem] start with the row of the node itself, at that depth;
    every row shows a node of the tree (its name, path and type) at that
    depth or deeper; and a file, or a directory that is not open, gives its
    own row only. *)
Theorem FileTreeItem_rows_are_nodes
    (open_items : gmap (list N) bool) (node : FileNode) (depth : nat) :
  let rows := FileTreeItem open_items depth node in
  head rows
  = Some {| row_name := node_name node; row_path := node_path node;
            row_type := node_type node; row_depth := depth;
            row_isOpen := item_isOpen open_items depth (node_path node) |}
  ∧ Forall (λ r, (depth ≤ row_depth r)%nat
                 ∧ ∃ n, n ∈ tree_nodes node
                        ∧ row_name r = node_name n
                        ∧ row_path r = node_path n
                        ∧ row_type r = node_type n) rows
  ∧ (node_type node = file
     ∨ item_isOpen open_items depth (node_path node) = false →
     length rows = 1%nat).
Proof.
  cbv zeta. split; [by destruct node|]. split.
  - revert depth.
    induction node as [name path type|name path type cs IH]
      using FileNode_tree_ind; intros depth.
    + cbn [FileTreeItem]. rewrite andb_comm.
      replace (if _ && _ then [] else []) with (@nil TreeRow)
        by (by destruct (_ && _)).
      constructor; [|constructor].
      split; [done|]. eexists. split; [apply list_elem_of_here|done].
    + cbn [FileTreeItem]. constructor.
      { split; [done|]. eexists. split; [apply list_elem_of_here|done]. }
      destruct (_ && _); [|constructor].
      apply Forall_bind. rewrite Forall_forall in IH |- *.
      intros c Hc. cbn [compose].
      eapply Forall_impl; [apply (IH c Hc (S depth))|].
      intros r (Hdepth & n & Hn & Hrow). split; [lia|].
      exists n. split; [|done]. by eapply tree_nodes_child.
  - destruct node as [name path type children]. cbn [node_type node_path FileTreeItem].
    intros [-> | ->].
    + by rewrite (bool_decide_eq_false_2 (file = directory)).
    + by rewrite andb_false_r.
Qed.


(** ** The write mutation and the file-tree query *)

Lemma prefix_of_same_length {A} (l k : list A) :
  length l = length k → l `prefix_of` k → l = k.
Proof.
  intros Hlen [rest ->]. rewrite length_app in Hlen.
  destruct rest; [by rewrite app_nil_r|]. cbn in Hlen. lia.
Qed.

(** Property X22.  The write mutation invalidates a query exactly when
    the write succeeded, and what it invalidates is the file-tree query of
    the same user, project and module: the key it gives matches the key of
    a file-tree query if and only if the three are the same. *)
Theorem writeFile_invalidates_its_file_tree {T}
    (net : Request → FetchOutcome T)
    (userId projectId module path content : jsstring)
    (userId' projectId' module' : jsstring) :
  let result := writeFileMutation net userId projectId module path content in
  (result.2 ≠ [] ↔ result.1 = inr ())
  ∧ (∀ key, key ∈ result.2 →
       (invalidates key (fileTree_queryKey userId' projectId' module') = true
        ↔ userId = userId' ∧ projectId = projectId' ∧ module = module')).
Proof.
  cbv zeta. unfold writeFileMutation. cbn [fst snd].
  destruct (run net _).2 as [err|[]].
  - split; [done|]. intros key Hkey. by apply elem_of_nil in Hkey.
  - split; [done|]. intros key ->%list_elem_of_singleton.
    unfold invalidates. rewrite bool_decide_eq_true. split.
    + intros Hprefix. apply prefix_of_same_length in Hprefix; [|done].
      by injection Hprefix as -> -> ->.
    + by intros (-> & -> & ->).
Qed.

(** ** The development proxy *)

Lemma connect_rule_matches (rest : jsstring) :
  bool_decide (lit "/connect" `prefix_of` lit "/connect/" ++ rest) = true.
Proof. apply bool_decide_eq_true_2. by exists (lit "/" ++ rest). Qed.

Lemma proxied_connect (rules_target : jsstring) (rest : jsstring) :
  proxy_target_for
    [ {| proxy_context := lit "/connect"; proxy_rule_target := rules_target;
         changeOrigin := true |};
      {| proxy_context := lit "/agent"; proxy_rule_target := rules_target;
         changeOrigin := true |} ]
    (lit "/connect/" ++ rest)
  = Some rules_target.
Proof.
  unfold proxy_target_for, proxy_rule_for. cbn [find proxy_context].
  by rewrite connect_rule_matches.
Qed.



(** Property X24.  With [VITE_API_URL] set (and not empty), the
    development server forwards the relative requests of [useSandbox] to
    the very API URL that the configuration defines for the client, the one
    [sandboxFilesUrl] and the other helpers put in front of their paths: in
    development the hook and the helpers reach the same host. *)
Theorem development_hook_reaches_api_host
    (url userId projectId module : jsstring) :
  url ≠ [] →
  proxy_target_for (vite_proxy_env (Some url))
    (lit "/connect/" ++ userId ++ lit "/" ++ projectId ++ lit "/" ++ module
     ++ lit "/api/files")
  = Some (vite_define_API_URL (Some url))
  ∧ sandboxFilesUrl (vite_define_API_URL (Some url)) userId projectId module
    = vite_define_API_URL (Some url)
      ++ lit "/connect/" ++ userId ++ lit "/" ++ projectId ++ lit "/"
      ++ module ++ lit "/api/files".
Proof.
  intros Hurl. unfold vite_proxy_env. rewrite proxied_connect.
  unfold sandboxFilesUrl. rewrite apiUrl_app.
  unfold vite_define_API_URL, env_or, or_else. by destruct url.
Qed.

(** ** The icon of a file *)

Lemma split_on_nonempty (sep : N) (s : jsstring) : split_on sep s ≠ [].
Proof.
  destruct s as [|c rest]; [done|]. cbn [split_on].
  destruct (c =? sep); [done|]. by destruct (split_on sep rest).
Qed.

Lemma split_on_no_separator (sep : N) (s : jsstring) :
  sep ∉ s → split_on sep s = [s].
Proof.
  induction s as [|c rest IH]; [done|]. intros Hnot.
  apply not_elem_of_cons in Hnot as [Hne Hrest]. cbn [split_on].
  rewrite (proj2 (N.eqb_neq c sep)) by done. by rewrite (IH Hrest).
Qed.

Lemma split_on_app (sep : N) (a b : jsstring) :
  split_on sep (a ++ sep :: b) = split_on sep a ++ split_on sep b.
Proof.
  induction a as [|c a IH]; cbn [app split_on].
  - by rewrite N.eqb_refl.
  - destruct (c =? sep); [by rewrite IH|]. rewrite IH.
    pose proof (split_on_nonempty sep a) as Hne.
    by destruct (split_on sep a).
Qed.

(** Property X25.  The icon of a file is chosen by the text after the last
    dot of its name alone: a name and its bare extension have the same
    icon, and a name with no dot counts as its own extension. *)
Theorem getFileIcon_by_last_segment
    (toLowerCase : jsstring → jsstring) (stem ext : jsstring) :
  46 ∉ ext →
  file_extension toLowerCase (stem ++ [46] ++ ext) = toLowerCase ext
  ∧ file_extension toLowerCase ext = toLowerCase ext
  ∧ getFileIcon toLowerCase (stem ++ [46] ++ ext)
    = getFileIcon toLowerCase ext.
Proof.
  intros Hext.
  assert (Hdot : file_extension toLowerCase (stem ++ [46] ++ ext)
                 = toLowerCase ext).
  { unfold file_extension. cbn [app].
    by rewrite split_on_app, (split_on_no_separator 46 ext Hext), last_snoc. }
  assert (Hbare : file_extension toLowerCase ext = toLowerCase ext).
  { unfold file_extension. by rewrite (split_on_no_separator 46 ext Hext). }
  split; [done|]. split; [done|]. unfold getFileIcon. by rewrite Hdot, Hbare.
Qed.

(** ** These properties at concrete inputs *)

Lemma readFile_query_is_escaped_witness :
  ∃ encoded,
    lit "/connect/alice/proj1/frontend/api/files?path=a%26b%3Dc%20d%2F..%23x"
    = lit "/connect/" ++ lit "alice" ++ lit "/" ++ lit "proj1" ++ lit "/"
      ++ lit "frontend" ++ lit "/api/files?path=" ++ encoded
    ∧ Forall (λ c, uri_unreserved c = true ∨ c = 37) encoded
    ∧ ∀ c, c ∈ [38; 35; 47; 63; 61; 32; 43] → c ∉ encoded.
Proof.
  apply (readFile_query_is_escaped
           (lit "alice") (lit "proj1") (lit "frontend") (lit "a&b=c d/..#x")
           (λ _, Failed (TypeError (lit "Failed to fetch")))
           (plain_get (lit "/connect/alice/proj1/frontend/api/files?path=a%26b%3Dc%20d%2F..%23x"))).
  - vm_compute. repeat constructor.
  - vm_compute. apply list_elem_of_here.
Defined.

Lemma readFile_requests_without_surrogates_witness :
  is_Some (encodeURIComponent (lit "src/App.tsx"))
  ∧ length (run (λ _, Failed (TypeError (lit "Failed to fetch")))
              (readFile (lit "alice") (lit "proj1") (lit "frontend")
                 (lit "src/App.tsx"))).1 = 1%nat.
Proof.
  apply (readFile_requests_without_surrogates
           (lit "alice") (lit "proj1") (lit "frontend") (lit "src/App.tsx")).
  vm_compute. repeat constructor.
Defined.

Lemma readFile_plain_path_unchanged_witness :
  (run (λ _, Failed (TypeError (lit "Failed to fetch")))
       (readFile (lit "alice") (lit "proj1") (lit "frontend")
          (lit "README.md"))).1
  = [plain_get (lit "/connect/" ++ lit "alice" ++ lit "/" ++ lit "proj1"
                ++ lit "/" ++ lit "frontend" ++ lit "/api/files?path="
                ++ lit "README.md")].
Proof.
  apply (readFile_plain_path_unchanged
           (lit "alice") (lit "proj1") (lit "frontend") (lit "README.md")).
  vm_compute. repeat constructor.
Defined.

Lemma ChatInput_sends_trimmed_text_witness :
  lit "fix the header" ≠ []
  ∧ (∀ c, head (lit "fix the header") = Some c → is_trim_space c = false)
  ∧ (∀ c, last (lit "fix the header") = Some c → is_trim_space c = false)
  ∧ trim (lit "fix the header") = lit "fix the header".
Proof.
  apply (ChatInput_sends_trimmed_text None (lit "  fix the header  ")).
  vm_compute. apply list_elem_of_here.
Defined.

Lemma ChatInput_blank_input_not_sent_witness :
  handleSubmit None (lit "   " ++ [0x0A; 0x09]) = []
  ∧ send_button_disabled None (lit "   " ++ [0x0A; 0x09]) = true
  ∧ ∀ e, handleKeyDown None (lit "   " ++ [0x0A; 0x09]) e = [preventDefault]
         ∨ handleKeyDown None (lit "   " ++ [0x0A; 0x09]) e = [].
Proof.
  apply (ChatInput_blank_input_not_sent None (lit "   " ++ [0x0A; 0x09])).
  vm_compute. repeat constructor.
Defined.

(** An agent endpoint that answers 500 with a text. *)
Lemma sendAgentMessage_error_message_witness :
  ∃ message,
    (run (λ _, Fulfilled {| res_status := 500; res_text := lit "agent down";
                            res_json := None |})
         (sendAgentMessage (lit "") (VString (lit "hello")))).2
    = inl (Error message)
    ∧ message ≠ []
    ∧ (lit "agent down" ≠ [] → message = lit "agent down")
    ∧ (lit "agent down" = [] → message = lit "Failed to send message").
Proof.
  apply (sendAgentMessage_error_message (lit "") (VString (lit "hello"))
           (λ _, Fulfilled {| res_status := 500; res_text := lit "agent down";
                              res_json := None |})
           {| res_status := 500; res_text := lit "agent down";
              res_json := None |});
    reflexivity.
Defined.

Lemma chat_exchange_failure_state_witness :
  ChatPanel_exchange (lit "") (lit "demo-user") (lit "demo-project") frontend
    (λ _, Failed (TypeError (lit "Failed to fetch")))
    {| randomUUID := lit "id-1"; now := 1000 |}
    {| randomUUID := lit "id-2"; now := 2000 |}
    (lit "Create a button")
    {| isOpen := true; messages := []; isPending := false |}
  = {| isOpen := true;
       messages := [ {| msg_id := lit "id-1"; msg_role := user;
                        msg_content := lit "Create a button";
                        msg_timestamp := 1000 |} ];
       isPending := false |}.
Proof.
  apply (chat_exchange_failure_state
           (lit "") (lit "demo-user") (lit "demo-project")
           (lit "Create a button") frontend
           (λ _, Failed (TypeError (lit "Failed to fetch")))
           {| randomUUID := lit "id-1"; now := 1000 |}
           {| randomUUID := lit "id-2"; now := 2000 |}
           {| isOpen := true; messages := []; isPending := false |}
           (TypeError (lit "Failed to fetch"))).
  reflexivity.
Defined.

Lemma chat_submit_while_pending_witness :
  ChatPanel_step (lit "") (lit "demo-user") (lit "demo-project") frontend
    (ev_submit {| randomUUID := lit "id-3"; now := 3000 |} (lit "and a link"))
    {| isOpen := true; messages := []; isPending := true |}
  = {| isOpen := true; messages := []; isPending := true |}
  ∧ handleSubmit (Some true) (lit "and a link") = []
  ∧ textarea_disabled (Some true) = true
  ∧ send_button_disabled (Some true) (lit "and a link") = true.
Proof.
  apply (chat_submit_while_pending
           (lit "") (lit "demo-user") (lit "demo-project") (lit "and a link")
           frontend {| randomUUID := lit "id-3"; now := 3000 |}
           {| isOpen := true; messages := []; isPending := true |}).
  reflexivity.
Defined.

Lemma chat_view_invariant_witness :
  let events := [ev_open;
                 ev_submit {| randomUUID := lit "id-1"; now := 1000 |}
                   (lit " hello ")] in
  let st := ChatPanel_run (lit "") (lit "demo-user") (lit "demo-project")
              frontend events ChatPanel_initial in
  let list_view := MessageList (messages st) (Some (isPending st)) in
  bubble_text <$> bubbles list_view = [lit "hello"]
  ∧ bubble_right <$> last (bubbles list_view) = Some true
  ∧ typing_indicator list_view = true.
Proof.
  cbv zeta.
  destruct (chat_view_invariant
              (lit "") (lit "demo-user") (lit "demo-project") frontend
              [ev_open;
               ev_submit {| randomUUID := lit "id-1"; now := 1000 |}
                 (lit " hello ")]
              (MessageList
                 (messages
                    (ChatPanel_run (lit "") (lit "demo-user")
                       (lit "demo-project") frontend
                       [ev_open;
                        ev_submit {| randomUUID := lit "id-1"; now := 1000 |}
                          (lit " hello ")]
                       ChatPanel_initial))
                 (Some true))
              (Some true) eq_refl)
    as (Htext & _ & Htyping & _ & Hlast & _).
  split; [exact Htext|]. split; [exact (Hlast eq_refl)|]. reflexivity.
Defined.

Lemma App_click_is_consistent_witness :
  let shell := App (lit "https://api.example.com") dbml
                 {| filter := []; opened := ∅ |}
                 (PreviewPane_mount dbml) in
  aria_label <$> List.filter aria_pressed (shell_sidebar shell) = [lit "DBML"]
  ∧ iframe_src (shell_preview shell)
    = lit "https://api.example.com/connect/demo-user/demo-project/dbml/".
Proof.
  cbv zeta.
  destruct (App_click_is_consistent
              (lit "https://api.example.com") (lit "Add a users table")
              prototype
              {| aria_label := lit "DBML"; aria_pressed := false;
                 on_click := dbml |}
              {| filter := []; opened := ∅ |} (PreviewPane_mount dbml)
              {| randomUUID := lit "id-1"; now := 1000 |}
              ChatPanel_initial
              (λ _, Failed (TypeError (lit "Failed to fetch"))))
    as (Hpressed & _ & Hsrc & _).
  - vm_compute. do 2 apply list_elem_of_further. apply list_elem_of_here.
  - split; [exact (f_equal (fmap aria_label) Hpressed)|exact Hsrc].
Defined.

Lemma PreviewPane_refresh_reloads_witness :
  let st := {| refreshKey := 4; pp_isLoading := false; hasError := true |} in
  let s' := PreviewPane_step pv_refresh (tests, st) in
  let after := PreviewPane (lit "") s'.1 (lit "demo-user")
                 (lit "demo-project") s'.2 in
  s'.1 = tests
  ∧ iframe_key after = 4 + 1
  ∧ iframe_src after = lit "/connect/demo-user/demo-project/tests/"
  ∧ loading_overlay after = true
  ∧ error_overlay after = false.
Proof.
  apply (PreviewPane_refresh_reloads (lit "") (lit "demo-user")
           (lit "demo-project") tests
           {| refreshKey := 4; pp_isLoading := false; hasError := true |}).
  reflexivity.
Defined.

Lemma PreviewPane_key_counts_refreshes_witness :
  let events := [pv_refresh; pv_error; pv_refresh; pv_module dbml; pv_load] in
  let s := PreviewPane_run events (prototype, PreviewPane_mount prototype) in
  let view := PreviewPane (lit "") s.1 (lit "demo-user") (lit "demo-project")
                s.2 in
  iframe_key view = 2
  ∧ s.1 = dbml
  ∧ loading_overlay view && error_overlay view = false.
Proof.
  apply (PreviewPane_key_counts_refreshes (lit "") (lit "demo-user")
           (lit "demo-project") prototype
           [pv_refresh; pv_error; pv_refresh; pv_module dbml; pv_load]).
  reflexivity.
Defined.


Lemma development_hook_reaches_api_host_witness :
  proxy_target_for (vite_proxy_env (Some (lit "https://api.example.com")))
    (lit "/connect/" ++ lit "alice" ++ lit "/" ++ lit "proj1" ++ lit "/"
     ++ lit "frontend" ++ lit "/api/files")
  = Some (lit "https://api.example.com").
Proof.
  apply (development_hook_reaches_api_host (lit "https://api.example.com")
           (lit "alice") (lit "proj1") (lit "frontend")).
  discriminate.
Defined.

Lemma getFileIcon_by_last_segment_witness :
  let lower (s : jsstring) : jsstring :=
    (λ c, if (65 <=? c) && (c <=? 90) then c + 32 else c) <$> s in
  file_extension lower (lit "bundle.min" ++ [46] ++ lit "JS") = lit "js"
  ∧ getFileIcon lower (lit "bundle.min" ++ [46] ++ lit "JS") = FileCode
  ∧ getFileIcon lower (lit "json") = FileJson.
Proof.
  cbv zeta.
  destruct (getFileIcon_by_last_segment
              (λ s : jsstring,
                 (λ c, if (65 <=? c) && (c <=? 90) then c + 32 else c) <$> s)
              (lit "bundle.min") (lit "JS")) as (Hext & _ & Hicon).
  - vm_compute. intros Hin.
    repeat (apply elem_of_cons in Hin as [Hin|Hin]; [discriminate Hin|]).
    by apply elem_of_nil in Hin.
  - split; [by rewrite Hext|]. split; [by rewrite Hicon|]. reflexivity.
Defined.
